(** * ng-signal-forms: the reactive form field

    A shallow embedding of [createFormField]
    (packages/platform/src/lib/form-field.ts) and the properties of its
    interaction state machine, its reset protocol and its validation views.

    The field lives on Angular's signal runtime.  What the runtime does is
    written out here as explicit state passing:

    - a writable signal is a cell; [set] compares the new value with the
      held one by [Object.is] and only a change notifies the dependants;
    - an [effect] does not run inside the write that notifies it: the
      runtime schedules it and runs it later, in its own pass.  The field
      carries the flag "the dirty tracker is scheduled" and [runEffects]
      is that pass;
    - a [computed] is a function of the cells it reads.

    The [hidden], [disabled] and [readOnly] flags have effects of their own
    that neither read nor write the cells of the interaction state
    machine; they come with the field in [ConfiguredField]. *)

From Stdlib Require Import ZArith.
From stdpp Require Import base decidable option list strings gmap.

Local Open Scope Z_scope.
Local Open Scope string_scope.
Local Open Scope list_scope.

(** ** JavaScript values *)

(** The values a field can hold.  Numbers are the integers: [NaN],
    fractions and the negative zero, on which [===] and [Object.is] part
    ways, are left out ([exact], further down, has the tracker on [NaN]
    and the negative zero).  Objects, arrays and functions are their
    reference. *)
Inductive JsValue : Type :=
  | JsUndefined
  | JsNull
  | JsBoolean (b : bool)
  | JsNumber (n : Z)
  | JsString (s : string)
  | JsObject (ref : nat).

#[global] Instance JsValue_eq_dec : EqDecision JsValue.
Proof. solve_decision. Defined.

(** [a === b]: objects are compared by reference. *)
Definition strict_equals (a b : JsValue) : bool := bool_decide (a = b).

(** [a !== b] *)
Definition strict_not_equals (a b : JsValue) : bool := negb (strict_equals a b).

(** [Object.is(a, b)], the default equality of a signal. *)
Definition Object_is (a b : JsValue) : bool := bool_decide (a = b).

(** [!!v] *)
Definition ToBoolean (v : JsValue) : bool :=
  match v with
  | JsUndefined | JsNull => false
  | JsBoolean b => b
  | JsNumber n => negb (Z.eqb n 0)
  | JsString s => negb (String.eqb s EmptyString)
  | JsObject _ => true
  end.

(** ** The validation collaborator (./validation) *)

Module validation.

(** A validator descriptor is an object; the core only ever passes it
    on, so it is its reference. *)
Definition Validator : Type := nat.

(** ['VALID'] or another tag: the core compares it with the string
    ['VALID'] and nothing else. *)
Definition ValidationState : Type := string.

(** An entry of [errorsArray]; [message] is [string | undefined]. *)
Record InvalidDetails : Type := {
  key : string;
  message : option string
}.

(** The [errors] object: its own entries, and what a property read finds
    on its prototype chain when there is no own entry. *)
Record ValidationErrors : Type := {
  own : gmap string JsValue;
  inherited : gmap string JsValue
}.

(** [errors[k]] *)
Definition get (errors : ValidationErrors) (k : string) : JsValue :=
  match own errors !! k with
  | Some v => v
  | None => default JsUndefined (inherited errors !! k)
  end.

(** The derivations the core imports and wires together.  They are not
    part of the core: every property below holds for any collaborator.
    [computeValidateState validators value] stands for
    [computeValidateState(computeValidators(valueSignal, validators, injector))]
    read at the current value: the views are the views once the
    collaborator, which is handed the injector and does its own work in
    the runtime's pass, has caught up with the value.  How far it lags
    behind a write is not modelled; the theorems on the views hold for
    whatever the collaborator returns. *)
Class Collaborator : Type := {
  ValidateState : Type;
  computeValidateState : option (list Validator) → JsValue → ValidateState;
  computeErrors : ValidateState → ValidationErrors;
  computeErrorsArray : ValidateState → list InvalidDetails;
  computeState : ValidateState → ValidationState
}.

(** Modelled from the spec: [hasValidator] of ./validation, whose source
    is not part of the core.  It "asks whether [validatorRef] is present
    among the field's configured validators" and "returns [false] if no
    validators were configured at all"; the list is optional. *)
Definition hasValidator (validators : option (list Validator))
    (validator : Validator) : bool :=
  match validators with
  | None => false
  | Some vs => bool_decide (validator ∈ vs)
  end.

End validation.

Import validation.

(** ** The field *)

Inductive DirtyState : Type := PRISTINE | DIRTY.
Inductive TouchedState : Type := TOUCHED | UNTOUCHED.

#[global] Instance DirtyState_eq_dec : EqDecision DirtyState.
Proof. solve_decision. Defined.
#[global] Instance TouchedState_eq_dec : EqDecision TouchedState.
Proof. solve_decision. Defined.

Record FormFieldOptions : Type := {
  validators : option (list Validator)
}.

(** [options]: the object itself, or a function that makes it from the
    value signal (called once, at construction). *)
Inductive OptionsArg : Type :=
  | OptionsObject (o : FormFieldOptions)
  | OptionsCreator (creator : JsValue → FormFieldOptions).

(** [value]: a plain value, or a writable signal owned elsewhere, given
    with the value it holds when the field is created. *)
Inductive ValueArg : Type :=
  | PlainValue (v : JsValue)
  | WritableSignal (held : JsValue).

(** What a reader of the field's signals sees. *)
Record View : Type := {
  seen_value : JsValue;
  seen_touchedState : TouchedState;
  seen_dirtyState : DirtyState
}.

(** What a reset callback can do: call the field's writers, and leave a
    mark in the world outside the field ([Push]: append to a log it
    owns).  A callback that calls [reset] or [registerOnReset] from
    within itself is not modelled. *)
Inductive Action : Type :=
  | SetValue (v : JsValue)
  | MarkAsTouched
  | MarkAsDirty
  | Push (v : JsValue).

#[global] Instance Action_eq_dec : EqDecision Action.
Proof. solve_decision. Defined.

(** [(value) => void]: from its argument and what it reads, what it does. *)
Definition Callback : Type := JsValue → View → list Action.

Record FormField : Type := {
  valueSignal : JsValue;
  touchedStateSignal : TouchedState;
  dirtyStateSignal : DirtyState;
  (** [let previousValue], the variable the dirty tracker closes over *)
  previousValue : JsValue;
  (** the dirty tracker has been notified (or created) and not run yet *)
  trackerScheduled : bool;
  defaultValue : JsValue;
  finalOptions : option FormFieldOptions;
  onReset : Callback;
  (** the log of the callbacks *)
  outside : list JsValue
}.

(** [isSignal(value) ? value() : value] *)
Definition initialValue (value : ValueArg) : JsValue :=
  match value with
  | PlainValue v => v
  | WritableSignal held => held
  end.

Definition createFormField (value : ValueArg) (options : option OptionsArg)
    : FormField :=
  let held := initialValue value in
  {| valueSignal := held;
     touchedStateSignal := UNTOUCHED;
     dirtyStateSignal := PRISTINE;
     previousValue := JsUndefined;
     trackerScheduled := true;
     defaultValue := held;
     finalOptions :=
       match options with
       | Some (OptionsCreator creator) => Some (creator held)
       | Some (OptionsObject o) => Some o
       | None => None
       end;
     onReset := λ _ _, [];
     outside := [] |}.

(** *** Writers *)

(** [valueSignal.set(v)] *)
Definition value_set (v : JsValue) (f : FormField) : FormField :=
  if Object_is (valueSignal f) v then f
  else {| valueSignal := v;
          touchedStateSignal := touchedStateSignal f;
          dirtyStateSignal := dirtyStateSignal f;
          previousValue := previousValue f;
          trackerScheduled := true;
          defaultValue := defaultValue f;
          finalOptions := finalOptions f;
          onReset := onReset f;
          outside := outside f |}.

(** [touchedStateSignal.set(t)]: no effect reads this signal. *)
Definition touchedState_set (t : TouchedState) (f : FormField) : FormField :=
  {| valueSignal := valueSignal f;
     touchedStateSignal := t;
     dirtyStateSignal := dirtyStateSignal f;
     previousValue := previousValue f;
     trackerScheduled := trackerScheduled f;
     defaultValue := defaultValue f;
     finalOptions := finalOptions f;
     onReset := onReset f;
     outside := outside f |}.

(** [dirtyStateSignal.set(d)]: no effect reads this signal. *)
Definition dirtyState_set (d : DirtyState) (f : FormField) : FormField :=
  {| valueSignal := valueSignal f;
     touchedStateSignal := touchedStateSignal f;
     dirtyStateSignal := d;
     previousValue := previousValue f;
     trackerScheduled := trackerScheduled f;
     defaultValue := defaultValue f;
     finalOptions := finalOptions f;
     onReset := onReset f;
     outside := outside f |}.

Definition markAsTouched (f : FormField) : FormField := touchedState_set TOUCHED f.
Definition markAsDirty (f : FormField) : FormField := dirtyState_set DIRTY f.

Definition registerOnReset (fn : Callback) (f : FormField) : FormField :=
  {| valueSignal := valueSignal f;
     touchedStateSignal := touchedStateSignal f;
     dirtyStateSignal := dirtyStateSignal f;
     previousValue := previousValue f;
     trackerScheduled := trackerScheduled f;
     defaultValue := defaultValue f;
     finalOptions := finalOptions f;
     onReset := fn;
     outside := outside f |}.

Definition push (v : JsValue) (f : FormField) : FormField :=
  {| valueSignal := valueSignal f;
     touchedStateSignal := touchedStateSignal f;
     dirtyStateSignal := dirtyStateSignal f;
     previousValue := previousValue f;
     trackerScheduled := trackerScheduled f;
     defaultValue := defaultValue f;
     finalOptions := finalOptions f;
     onReset := onReset f;
     outside := outside f ++ [v] |}.

Definition perform (f : FormField) (a : Action) : FormField :=
  match a with
  | SetValue v => value_set v f
  | MarkAsTouched => markAsTouched f
  | MarkAsDirty => markAsDirty f
  | Push v => push v f
  end.

Definition view (f : FormField) : View :=
  {| seen_value := valueSignal f;
     seen_touchedState := touchedStateSignal f;
     seen_dirtyState := dirtyStateSignal f |}.

(** The first three statements of [reset]. *)
Definition restore (f : FormField) : FormField :=
  dirtyState_set PRISTINE
    (touchedState_set UNTOUCHED
      (value_set (defaultValue f) f)).

(** [reset]: the three writes, then [onReset(defaultValue)]. *)
Definition reset (f : FormField) : FormField :=
  let r := restore f in
  foldl perform r (onReset r (defaultValue r) (view r)).

(** *** The dirty tracker *)

(** The body of the effect. *)
Definition dirtyTracker (f : FormField) : FormField :=
  let newValue := valueSignal f in
  let f' :=
    if strict_not_equals (previousValue f) JsUndefined
       && strict_not_equals newValue (previousValue f)
    then dirtyState_set DIRTY f
    else f in
  {| valueSignal := valueSignal f';
     touchedStateSignal := touchedStateSignal f';
     dirtyStateSignal := dirtyStateSignal f';
     previousValue := newValue;
     trackerScheduled := false;
     defaultValue := defaultValue f';
     finalOptions := finalOptions f';
     onReset := onReset f';
     outside := outside f' |}.

(** One pass of the runtime over the scheduled effects. *)
Definition runEffects (f : FormField) : FormField :=
  if trackerScheduled f then dirtyTracker f else f.

(** *** Histories *)

(** What can happen to a field: its owner (or anything outside, through
    a shared value signal) acts on it, resets it, registers a callback,
    and the runtime runs the scheduled effects in between. *)
Inductive Op : Type :=
  | Act (a : Action)
  | Reset
  | RegisterOnReset (fn : Callback)
  | RunEffects.

Definition step (f : FormField) (op : Op) : FormField :=
  match op with
  | Act a => perform f a
  | Reset => reset f
  | RegisterOnReset fn => registerOnReset fn f
  | RunEffects => runEffects f
  end.

Definition run (ops : list Op) (f : FormField) : FormField := foldl step f ops.

(** A write, followed by the runtime's pass: the tracker observes [v]. *)
Definition observe (f : FormField) (v : JsValue) : FormField :=
  runEffects (value_set v f).

(** [writes] are values written one after the other on top of [prior],
    each [!==] the value it replaces. *)
Fixpoint each_differs (prior : JsValue) (writes : list JsValue) : bool :=
  match writes with
  | [] => true
  | w :: ws => strict_not_equals w prior && each_differs w ws
  end.

(** An action that does not write to the field. *)
Definition logs_only (a : Action) : bool :=
  match a with
  | Push _ => true
  | _ => false
  end.

(** Once the tracker has run and nothing has notified it since, its
    baseline is the value the field holds. *)
Definition settled (f : FormField) : Prop :=
  trackerScheduled f = false → previousValue f = valueSignal f.

(** The cells of the interaction state machine. *)
Definition cells (f : FormField)
    : JsValue * TouchedState * DirtyState * JsValue * bool * JsValue :=
  (valueSignal f, touchedStateSignal f, dirtyStateSignal f,
   previousValue f, trackerScheduled f, defaultValue f).

(** *** Readers *)

Definition value (f : FormField) : JsValue := valueSignal f.
Definition touched (f : FormField) : bool :=
  bool_decide (touchedStateSignal f = TOUCHED).
Definition dirty (f : FormField) : bool :=
  bool_decide (dirtyStateSignal f = DIRTY).

Section Views.
Context `{Collaborator}.

Definition validateStateSignal (f : FormField) : ValidateState :=
  computeValidateState
    (match finalOptions f with Some o => validators o | None => None end)
    (valueSignal f).

Definition errors (f : FormField) : ValidationErrors :=
  computeErrors (validateStateSignal f).
Definition errorsArray (f : FormField) : list InvalidDetails :=
  computeErrorsArray (validateStateSignal f).
Definition state (f : FormField) : ValidationState :=
  computeState (validateStateSignal f).
Definition valid (f : FormField) : bool := String.eqb (state f) "VALID".

Definition hasError (f : FormField) (errorKey : string) : bool :=
  ToBoolean (get (errors f) errorKey).

Definition errorMessage (f : FormField) (errorKey : string) : option string :=
  match find (λ e, String.eqb (key e) errorKey) (errorsArray f) with
  | Some e => message e
  | None => None
  end.
End Views.

Definition hasValidator (f : FormField) (validator : Validator) : bool :=
  match finalOptions f with
  | Some o => validation.hasValidator (validators o) validator
  | None => false
  end.

(** ** A collaborator to run the field on *)

Module sample.

(** Two validators.  [positive] wants a number above zero and reports
    [true] under the key "positive".  [atLeast10] wants a number from ten
    on and reports the number it got under the key "atLeast10". *)
Definition positive : Validator := 0%nat.
Definition atLeast10 : Validator := 1%nat.

Record Failure : Type := {
  failed : string;
  payload : JsValue;
  text : option string
}.

Definition check (validator : Validator) (v : JsValue) : option Failure :=
  match validator, v with
  | O, JsNumber n =>
      if Z.ltb 0 n then None
      else Some {| failed := "positive"; payload := JsBoolean true;
                   text := Some "must be positive" |}
  | O, _ =>
      Some {| failed := "positive"; payload := JsBoolean true;
              text := Some "must be positive" |}
  | S O, JsNumber n =>
      if Z.leb 10 n then None
      else Some {| failed := "atLeast10"; payload := JsNumber n;
                   text := Some "must be 10 or more" |}
  | _, _ => None
  end.

#[export] Instance collaborator : Collaborator := {|
  ValidateState := list Failure;
  computeValidateState := λ validators v,
    omap (λ validator, check validator v) (default [] validators);
  computeErrors := λ failures,
    {| own := list_to_map ((λ x, (failed x, payload x)) <$> failures);
       inherited := ∅ |};
  computeErrorsArray := λ failures,
    (λ x, {| key := failed x; message := text x |}) <$> failures;
  computeState := λ failures,
    match failures with [] => "VALID" | _ => "INVALID" end
|}.

(** A callback that logs its tag, its argument and what it reads. *)
Definition spy (tag : JsValue) : Callback :=
  λ arg seen,
    [Push tag; Push arg; Push (seen_value seen);
     Push (JsBoolean (bool_decide (seen_dirtyState seen = DIRTY)));
     Push (JsBoolean (bool_decide (seen_touchedState seen = TOUCHED)))].

End sample.

(** ** Histories without writes *)

(** An action that writes the value. *)
Definition writes_value (a : Action) : bool :=
  match a with
  | SetValue _ => true
  | _ => false
  end.

(** An operation of a history in which nothing writes the value or marks
    the field dirty: [markAsTouched], [reset] with the callback of a new
    field, a mark outside, a pass of the runtime. *)
Definition leaves_pristine (op : Op) : bool :=
  match op with
  | Act MarkAsTouched | Act (Push _) | Reset | RunEffects => true
  | _ => false
  end.

(** ** The configuration flags *)

(** [hidden], [disabled] and [readOnly] are signals written by effects
    of their own, one per predicate of the options.  A predicate is a
    closure without arguments: what it returns depends on the signals it
    reads.  Here it reads the field's value signal and signals outside
    the field, held by name; a predicate that reads the field's other
    signals is not modelled.  The runtime notifies an effect when a signal
    it has read changes; here a flag's effect is notified by every change
    of the value signal or of a signal outside, which gives the flags the
    same values after each pass. *)
Definition Predicate : Type := JsValue → gmap string JsValue → bool.

(** [FormFieldOptions] with all its members. *)
Record FullOptions : Type := {
  base : FormFieldOptions;
  hidden : option Predicate;
  disabled : option Predicate;
  readOnly : option Predicate
}.

Inductive FullOptionsArg : Type :=
  | FullObject (o : FullOptions)
  | FullCreator (creator : JsValue → FullOptions).

(** [options && typeof options === 'function' ? options(valueSignal) : options] *)
Definition resolveOptions (value : ValueArg) (options : option FullOptionsArg)
    : option FullOptions :=
  match options with
  | Some (FullCreator creator) => Some (creator (initialValue value))
  | Some (FullObject o) => Some o
  | None => None
  end.

Definition coreOptions (options : FullOptionsArg) : OptionsArg :=
  match options with
  | FullObject o => OptionsObject (base o)
  | FullCreator creator => OptionsCreator (λ v, base (creator v))
  end.

(** A flag: its signal, whether its effect is waiting to run, and the
    predicate the effect calls (none: no effect was created). *)
Record Flag : Type := {
  flagSignal : bool;
  flagScheduled : bool;
  flagPredicate : option Predicate
}.

(** [signal(false)], and [if (finalOptions?.p) effect(...)] *)
Definition createFlag (p : option Predicate) : Flag :=
  {| flagSignal := false;
     flagScheduled := match p with Some _ => true | None => false end;
     flagPredicate := p |}.

Definition notifyFlag (c : Flag) : Flag :=
  match flagPredicate c with
  | Some _ =>
      {| flagSignal := flagSignal c;
         flagScheduled := true;
         flagPredicate := flagPredicate c |}
  | None => c
  end.

(** The body of a flag's effect, when it is scheduled:
    [flag.set(finalOptions!.p!())]. *)
Definition runFlag (v : JsValue) (signals : gmap string JsValue) (c : Flag)
    : Flag :=
  if flagScheduled c then
    match flagPredicate c with
    | Some p =>
        {| flagSignal := p v signals;
           flagScheduled := false;
           flagPredicate := flagPredicate c |}
    | None => c
    end
  else c.

(** The field with its flags, and the signals outside it. *)
Record ConfiguredField : Type := {
  core : FormField;
  signals : gmap string JsValue;
  hiddenFlag : Flag;
  disabledFlag : Flag;
  readOnlyFlag : Flag
}.

Definition hiddenSignal (F : ConfiguredField) : bool := flagSignal (hiddenFlag F).
Definition disabledSignal (F : ConfiguredField) : bool := flagSignal (disabledFlag F).
Definition readOnlySignal (F : ConfiguredField) : bool := flagSignal (readOnlyFlag F).

(** [createFormField] with the flags; [world] is what the signals outside
    hold when the field is created. *)
Definition createConfiguredField (world : gmap string JsValue)
    (value : ValueArg) (options : option FullOptionsArg) : ConfiguredField :=
  let finalOptions := resolveOptions value options in
  {| core := createFormField value (coreOptions <$> options);
     signals := world;
     hiddenFlag := createFlag (finalOptions ≫= hidden);
     disabledFlag := createFlag (finalOptions ≫= disabled);
     readOnlyFlag := createFlag (finalOptions ≫= readOnly) |}.

Definition with_core (g : FormField → FormField) (F : ConfiguredField)
    : ConfiguredField :=
  {| core := g (core F);
     signals := signals F;
     hiddenFlag := hiddenFlag F;
     disabledFlag := disabledFlag F;
     readOnlyFlag := readOnlyFlag F |}.

Definition notifyFlags (F : ConfiguredField) : ConfiguredField :=
  {| core := core F;
     signals := signals F;
     hiddenFlag := notifyFlag (hiddenFlag F);
     disabledFlag := notifyFlag (disabledFlag F);
     readOnlyFlag := notifyFlag (readOnlyFlag F) |}.

(** [valueSignal.set(v)], with the flags' effects among the dependants. *)
Definition configured_value_set (v : JsValue) (F : ConfiguredField)
    : ConfiguredField :=
  if Object_is (valueSignal (core F)) v then F
  else notifyFlags (with_core (value_set v) F).

Definition configured_perform (F : ConfiguredField) (a : Action)
    : ConfiguredField :=
  match a with
  | SetValue v => configured_value_set v F
  | _ => with_core (λ f, perform f a) F
  end.

Definition configured_restore (F : ConfiguredField) : ConfiguredField :=
  with_core (dirtyState_set PRISTINE)
    (with_core (touchedState_set UNTOUCHED)
      (configured_value_set (defaultValue (core F)) F)).

Definition configured_reset (F : ConfiguredField) : ConfiguredField :=
  let R := configured_restore F in
  foldl configured_perform R
    (onReset (core R) (defaultValue (core R)) (view (core R))).

(** A write to a signal outside the field. *)
Definition outside_set (name : string) (v : JsValue) (F : ConfiguredField)
    : ConfiguredField :=
  if bool_decide (signals F !! name = Some v) then F
  else
    notifyFlags
      {| core := core F;
         signals := <[name := v]> (signals F);
         hiddenFlag := hiddenFlag F;
         disabledFlag := disabledFlag F;
         readOnlyFlag := readOnlyFlag F |}.

(** One pass of the runtime: the dirty tracker and the flags' effects. *)
Definition configured_runEffects (F : ConfiguredField) : ConfiguredField :=
  {| core := runEffects (core F);
     signals := signals F;
     hiddenFlag := runFlag (valueSignal (core F)) (signals F) (hiddenFlag F);
     disabledFlag := runFlag (valueSignal (core F)) (signals F) (disabledFlag F);
     readOnlyFlag := runFlag (valueSignal (core F)) (signals F) (readOnlyFlag F) |}.

Inductive ConfiguredOp : Type :=
  | OnField (op : Op)
  | OutsideSet (name : string) (v : JsValue).

Definition configured_step (F : ConfiguredField) (op : ConfiguredOp)
    : ConfiguredField :=
  match op with
  | OnField (Act a) => configured_perform F a
  | OnField Reset => configured_reset F
  | OnField (RegisterOnReset fn) => with_core (registerOnReset fn) F
  | OnField RunEffects => configured_runEffects F
  | OutsideSet name v => outside_set name v F
  end.

Definition configured_run (ops : list ConfiguredOp) (F : ConfiguredField)
    : ConfiguredField :=
  foldl configured_step F ops.

(** What the flag holds is what its predicate returns, unless its effect
    is waiting to run; a flag without a predicate holds [false]. *)
Definition flag_current (v : JsValue) (world : gmap string JsValue) (c : Flag)
    : Prop :=
  match flagPredicate c with
  | Some p => flagScheduled c = false → flagSignal c = p v world
  | None => flagSignal c = false ∧ flagScheduled c = false
  end.

Definition flags_current (F : ConfiguredField) : Prop :=
  flag_current (valueSignal (core F)) (signals F) (hiddenFlag F)
  ∧ flag_current (valueSignal (core F)) (signals F) (disabledFlag F)
  ∧ flag_current (valueSignal (core F)) (signals F) (readOnlyFlag F).

(** The operations of a history that are operations on the field. *)
Definition field_op (op : ConfiguredOp) : option Op :=
  match op with
  | OnField o => Some o
  | OutsideSet _ _ => None
  end.

Definition flagSignals (F : ConfiguredField) : bool * bool * bool :=
  (hiddenSignal F, disabledSignal F, readOnlySignal F).

Definition flagPredicates (F : ConfiguredField)
    : option Predicate * option Predicate * option Predicate :=
  (flagPredicate (hiddenFlag F), flagPredicate (disabledFlag F),
   flagPredicate (readOnlyFlag F)).

(** The form of the specification's second scenario: [disabled] reads a
    signal outside the field, "locked". *)
Definition lockable : ConfiguredField :=
  createConfiguredField {[ "locked" := JsBoolean false ]}
    (PlainValue (JsString "a"))
    (Some (FullObject
       {| base := {| validators := None |};
          hidden := None;
          disabled := Some (λ _ world,
            ToBoolean (default JsUndefined (world !! "locked")));
          readOnly := None |})).

(** ** The tracker on every number *)

(** [JsValue] leaves out the two numbers on which [===] and [Object.is]
    part ways.  Here they are, with both equalities as JavaScript has
    them, under the field's value signal, its tracker and the three
    writes of [reset].  The reset callback is one that does not write to
    the field. *)
Module exact.

Inductive Value : Type :=
  | Plain (v : JsValue)
  | NaN
  | NegativeZero.

#[global] Instance Value_eq_dec : EqDecision Value.
Proof. solve_decision. Defined.

Definition undefined : Value := Plain JsUndefined.

(** [a === b]: [NaN] equals nothing, not even itself; [0] and [-0] are
    equal. *)
Definition strict_equals (a b : Value) : bool :=
  match a, b with
  | NaN, _ | _, NaN => false
  | NegativeZero, NegativeZero => true
  | NegativeZero, Plain v | Plain v, NegativeZero =>
      bool_decide (v = JsNumber 0)
  | Plain x, Plain y => bool_decide (x = y)
  end.

(** [a !== b] *)
Definition strict_not_equals (a b : Value) : bool := negb (strict_equals a b).

(** [Object.is(a, b)]: [NaN] is [NaN]; [0] is not [-0]. *)
Definition Object_is (a b : Value) : bool := bool_decide (a = b).

Record Field : Type := {
  valueSignal : Value;
  touchedStateSignal : TouchedState;
  dirtyStateSignal : DirtyState;
  previousValue : Value;
  trackerScheduled : bool;
  defaultValue : Value
}.

(** The field created with [held], or over a signal that holds it. *)
Definition createFormField (held : Value) : Field :=
  {| valueSignal := held;
     touchedStateSignal := UNTOUCHED;
     dirtyStateSignal := PRISTINE;
     previousValue := undefined;
     trackerScheduled := true;
     defaultValue := held |}.

(** [valueSignal.set(v)] *)
Definition value_set (v : Value) (f : Field) : Field :=
  if Object_is (valueSignal f) v then f
  else {| valueSignal := v;
          touchedStateSignal := touchedStateSignal f;
          dirtyStateSignal := dirtyStateSignal f;
          previousValue := previousValue f;
          trackerScheduled := true;
          defaultValue := defaultValue f |}.

Definition touchedState_set (t : TouchedState) (f : Field) : Field :=
  {| valueSignal := valueSignal f;
     touchedStateSignal := t;
     dirtyStateSignal := dirtyStateSignal f;
     previousValue := previousValue f;
     trackerScheduled := trackerScheduled f;
     defaultValue := defaultValue f |}.

Definition dirtyState_set (d : DirtyState) (f : Field) : Field :=
  {| valueSignal := valueSignal f;
     touchedStateSignal := touchedStateSignal f;
     dirtyStateSignal := d;
     previousValue := previousValue f;
     trackerScheduled := trackerScheduled f;
     defaultValue := defaultValue f |}.

(** [reset]: the three writes. *)
Definition reset (f : Field) : Field :=
  dirtyState_set PRISTINE
    (touchedState_set UNTOUCHED
      (value_set (defaultValue f) f)).

(** The body of the effect. *)
Definition dirtyTracker (f : Field) : Field :=
  let newValue := valueSignal f in
  let f' :=
    if strict_not_equals (previousValue f) undefined
       && strict_not_equals newValue (previousValue f)
    then dirtyState_set DIRTY f
    else f in
  {| valueSignal := valueSignal f';
     touchedStateSignal := touchedStateSignal f';
     dirtyStateSignal := dirtyStateSignal f';
     previousValue := newValue;
     trackerScheduled := false;
     defaultValue := defaultValue f' |}.

Definition runEffects (f : Field) : Field :=
  if trackerScheduled f then dirtyTracker f else f.

Inductive Op : Type :=
  | SetValue (v : Value)
  | MarkAsTouched
  | MarkAsDirty
  | Reset
  | RunEffects.

Definition step (f : Field) (op : Op) : Field :=
  match op with
  | SetValue v => value_set v f
  | MarkAsTouched => touchedState_set TOUCHED f
  | MarkAsDirty => dirtyState_set DIRTY f
  | Reset => reset f
  | RunEffects => runEffects f
  end.

Definition run (ops : list Op) (f : Field) : Field := foldl step f ops.

(** Whether one of [writes], made one after the other on a signal that
    holds [held], changes what the signal holds, and so notifies the
    tracker. *)
Fixpoint notifies (held : Value) (writes : list Value) : bool :=
  match writes with
  | [] => false
  | w :: ws => negb (Object_is held w) || notifies w ws
  end.

Definition dirty (f : Field) : bool := bool_decide (dirtyStateSignal f = DIRTY).
Definition touched (f : Field) : bool :=
  bool_decide (touchedStateSignal f = TOUCHED).

Definition settled (f : Field) : Prop :=
  trackerScheduled f = false → previousValue f = valueSignal f.

End exact.

(** The cells of a field, among the fields of [exact]. *)
Definition exact_cells (f : FormField) : exact.Field :=
  {| exact.valueSignal := exact.Plain (valueSignal f);
     exact.touchedStateSignal := touchedStateSignal f;
     exact.dirtyStateSignal := dirtyStateSignal f;
     exact.previousValue := exact.Plain (previousValue f);
     exact.trackerScheduled := trackerScheduled f;
     exact.defaultValue := exact.Plain (defaultValue f) |}.

(** The operation of [exact] an operation on the field is, when it is
    one: [registerOnReset] and the marks outside are not. *)
Definition exact_op (op : Op) : option exact.Op :=
  match op with
  | Act (SetValue v) => Some (exact.SetValue (exact.Plain v))
  | Act MarkAsTouched => Some exact.MarkAsTouched
  | Act MarkAsDirty => Some exact.MarkAsDirty
  | Reset => Some exact.Reset
  | RunEffects => Some exact.RunEffects
  | _ => None
  end.

(** ** The field at work: the numeric field of the specification *)

Definition numeric : FormField :=
  runEffects
    (createFormField (PlainValue (JsNumber 0))
       (Some (OptionsObject {| validators := Some [sample.positive] |}))).

Example numeric_initially :
  dirty numeric = false ∧ touched numeric = false
  ∧ @valid sample.collaborator numeric = false
  ∧ @hasError sample.collaborator numeric "positive" = true.
Proof. vm_compute. done. Qed.

Example numeric_written :
  let f := observe numeric (JsNumber 5) in
  dirty f = true ∧ @valid sample.collaborator f = true
  ∧ own (@errors sample.collaborator f) = ∅.
Proof. vm_compute. done. Qed.

Example numeric_reset :
  let f := reset (markAsTouched (observe numeric (JsNumber 5))) in
  value f = JsNumber 0 ∧ dirty f = false ∧ touched f = false
  ∧ @valid sample.collaborator f = false.
Proof. vm_compute. done. Qed.

(** ** What the writers leave alone *)

Lemma strict_equals_Object_is a b : strict_equals a b = Object_is a b.
Proof. reflexivity. Qed.

Lemma strict_not_equals_true a b : strict_not_equals a b = true ↔ a ≠ b.
Proof.
  unfold strict_not_equals, strict_equals.
  rewrite negb_true_iff, bool_decide_eq_false. done.
Qed.

Lemma strict_not_equals_refl a : strict_not_equals a a = false.
Proof.
  unfold strict_not_equals, strict_equals. by rewrite bool_decide_eq_true_2.
Qed.

Lemma value_set_valueSignal v f : valueSignal (value_set v f) = v.
Proof.
  unfold value_set, Object_is. case_bool_decide; [congruence | done].
Qed.

Lemma value_set_trackerScheduled v f :
  trackerScheduled (value_set v f)
  = trackerScheduled f || negb (Object_is (valueSignal f) v).
Proof.
  unfold value_set. destruct (Object_is _ _); simpl; [| by rewrite orb_true_r].
  by rewrite orb_false_r.
Qed.

Lemma value_set_rest v f :
  touchedStateSignal (value_set v f) = touchedStateSignal f
  ∧ dirtyStateSignal (value_set v f) = dirtyStateSignal f
  ∧ previousValue (value_set v f) = previousValue f
  ∧ defaultValue (value_set v f) = defaultValue f
  ∧ finalOptions (value_set v f) = finalOptions f
  ∧ onReset (value_set v f) = onReset f
  ∧ outside (value_set v f) = outside f.
Proof. unfold value_set. by destruct (Object_is _ _). Qed.

Lemma perform_rest f a :
  previousValue (perform f a) = previousValue f
  ∧ defaultValue (perform f a) = defaultValue f
  ∧ finalOptions (perform f a) = finalOptions f
  ∧ onReset (perform f a) = onReset f.
Proof.
  destruct a; simpl; try done.
  pose proof (value_set_rest v f) as Hv. intuition congruence.
Qed.

Lemma foldl_perform_rest acts f :
  previousValue (foldl perform f acts) = previousValue f
  ∧ defaultValue (foldl perform f acts) = defaultValue f
  ∧ finalOptions (foldl perform f acts) = finalOptions f
  ∧ onReset (foldl perform f acts) = onReset f.
Proof.
  revert f. induction acts as [| a acts IH]; intros f; simpl; [done |].
  destruct (IH (perform f a)) as (-> & -> & -> & ->). apply perform_rest.
Qed.

Lemma restore_cells f :
  valueSignal (restore f) = defaultValue f
  ∧ touchedStateSignal (restore f) = UNTOUCHED
  ∧ dirtyStateSignal (restore f) = PRISTINE
  ∧ previousValue (restore f) = previousValue f
  ∧ trackerScheduled (restore f)
    = trackerScheduled f || negb (Object_is (valueSignal f) (defaultValue f))
  ∧ defaultValue (restore f) = defaultValue f.
Proof.
  unfold restore; simpl.
  rewrite value_set_valueSignal, value_set_trackerScheduled.
  pose proof (value_set_rest (defaultValue f) f) as Hv. intuition congruence.
Qed.

Lemma restore_rest f :
  finalOptions (restore f) = finalOptions f
  ∧ onReset (restore f) = onReset f
  ∧ outside (restore f) = outside f.
Proof.
  unfold restore; simpl.
  pose proof (value_set_rest (defaultValue f) f) as Hv. intuition congruence.
Qed.

Lemma view_restore f :
  view (restore f)
  = {| seen_value := defaultValue f;
       seen_touchedState := UNTOUCHED;
       seen_dirtyState := PRISTINE |}.
Proof.
  unfold view. by destruct (restore_cells f) as (-> & -> & -> & _).
Qed.

Lemma reset_unfold f :
  reset f
  = foldl perform (restore f) (onReset f (defaultValue f) (view (restore f))).
Proof.
  unfold reset.
  destruct (restore_rest f) as (_ & -> & _).
  by destruct (restore_cells f) as (_ & _ & _ & _ & _ & ->).
Qed.

Lemma step_rest f op :
  defaultValue (step f op) = defaultValue f
  ∧ finalOptions (step f op) = finalOptions f.
Proof.
  destruct op as [a | | fn |]; simpl.
  - pose proof (perform_rest f a) as Hp. intuition congruence.
  - rewrite reset_unfold.
    destruct (foldl_perform_rest
                (onReset f (defaultValue f) (view (restore f))) (restore f))
      as (_ & -> & -> & _).
    destruct (restore_rest f) as (-> & _).
    by destruct (restore_cells f) as (_ & _ & _ & _ & _ & ->).
  - done.
  - unfold runEffects, dirtyTracker.
    destruct (trackerScheduled f); [| done]. simpl.
    by destruct (_ && _).
Qed.

Lemma run_rest ops f :
  defaultValue (run ops f) = defaultValue f
  ∧ finalOptions (run ops f) = finalOptions f.
Proof.
  unfold run. revert f. induction ops as [| op ops IH]; intros f; simpl; [done |].
  destruct (IH (step f op)) as (-> & ->). apply step_rest.
Qed.

(** ** The tracker's baseline *)

Lemma settled_create arg options : settled (createFormField arg options).
Proof. unfold settled. simpl. done. Qed.

Lemma settled_value_set v f : settled f → settled (value_set v f).
Proof.
  unfold settled, value_set. destruct (Object_is _ _); simpl; [done |].
  intros _ [=].
Qed.

Lemma settled_perform f a : settled f → settled (perform f a).
Proof. destruct a; simpl; [apply settled_value_set | done ..]. Qed.

Lemma settled_foldl_perform acts f :
  settled f → settled (foldl perform f acts).
Proof.
  revert f. induction acts as [| a acts IH]; intros f Hf; simpl; [done |].
  by apply IH, settled_perform.
Qed.

Lemma settled_runEffects f : settled f → settled (runEffects f).
Proof.
  unfold settled, runEffects, dirtyTracker.
  destruct (trackerScheduled f) eqn:E; [| intros Hf _; by apply Hf]. simpl.
  by destruct (_ && _).
Qed.

Lemma settled_step f op : settled f → settled (step f op).
Proof.
  intros Hf. destruct op as [a | | fn |]; simpl.
  - by apply settled_perform.
  - unfold reset. apply settled_foldl_perform.
    unfold restore. by apply (settled_value_set (defaultValue f)) in Hf.
  - done.
  - by apply settled_runEffects.
Qed.

Lemma settled_run ops f : settled f → settled (run ops f).
Proof.
  unfold run. revert f. induction ops as [| op ops IH]; intros f Hf; simpl.
  - done.
  - by apply IH, settled_step.
Qed.

Lemma reachable_settled arg options ops :
  settled (run ops (createFormField arg options)).
Proof. apply settled_run, settled_create. Qed.

(** ** One pass of the tracker *)

Lemma runEffects_dirtyState f :
  dirtyStateSignal (runEffects f)
  = if trackerScheduled f
       && strict_not_equals (previousValue f) JsUndefined
       && strict_not_equals (valueSignal f) (previousValue f)
    then DIRTY else dirtyStateSignal f.
Proof.
  unfold runEffects, dirtyTracker.
  destruct (trackerScheduled f); simpl; [| done].
  by destruct (_ && _).
Qed.

Lemma runEffects_previousValue f :
  previousValue (runEffects f)
  = if trackerScheduled f then valueSignal f else previousValue f.
Proof.
  unfold runEffects, dirtyTracker. by destruct (trackerScheduled f).
Qed.

Lemma runEffects_rest f :
  valueSignal (runEffects f) = valueSignal f
  ∧ touchedStateSignal (runEffects f) = touchedStateSignal f
  ∧ trackerScheduled (runEffects f) = false
  ∧ defaultValue (runEffects f) = defaultValue f
  ∧ finalOptions (runEffects f) = finalOptions f
  ∧ onReset (runEffects f) = onReset f
  ∧ outside (runEffects f) = outside f.
Proof.
  unfold runEffects, dirtyTracker.
  destruct (trackerScheduled f) eqn:E; simpl; [| done].
  by destruct (_ && _).
Qed.

(** A settled field has the value it holds for baseline once the tracker
    has run. *)
Lemma runEffects_baseline f :
  settled f → previousValue (runEffects f) = valueSignal f.
Proof.
  intros Hf. rewrite runEffects_previousValue.
  destruct (trackerScheduled f) eqn:E; [done | by apply Hf].
Qed.

Lemma observe_baseline f v : settled f → previousValue (observe f v) = v.
Proof.
  intros Hf. unfold observe.
  rewrite runEffects_baseline by by apply settled_value_set.
  apply value_set_valueSignal.
Qed.

(** With no baseline, whatever is observed leaves [dirtyState] as it is. *)
Lemma observe_without_baseline f v :
  previousValue f = JsUndefined →
  dirtyStateSignal (observe f v) = dirtyStateSignal f.
Proof.
  intros Hp. unfold observe. rewrite runEffects_dirtyState.
  destruct (value_set_rest v f) as (_ & -> & -> & _).
  rewrite Hp, strict_not_equals_refl, andb_false_r. done.
Qed.

(** With a baseline, and the tracker idle, a write of another value is
    seen as a change. *)
Lemma observe_with_baseline f v :
  trackerScheduled f = false →
  previousValue f = valueSignal f →
  valueSignal f ≠ JsUndefined →
  v ≠ valueSignal f →
  dirtyStateSignal (observe f v) = DIRTY.
Proof.
  intros Hs Hp Hu Hv. unfold observe. rewrite runEffects_dirtyState.
  rewrite value_set_trackerScheduled, value_set_valueSignal.
  destruct (value_set_rest v f) as (_ & _ & -> & _).
  rewrite Hs, Hp. unfold Object_is.
  rewrite bool_decide_eq_false_2 by done. simpl.
  rewrite (proj2 (strict_not_equals_true _ _) Hu).
  by rewrite (proj2 (strict_not_equals_true _ _) Hv).
Qed.

(** Nothing but [reset] writes [PRISTINE]. *)
Lemma perform_keeps_dirty f a :
  dirtyStateSignal f = DIRTY → dirtyStateSignal (perform f a) = DIRTY.
Proof.
  intros Hd. destruct a; simpl; try done.
  by destruct (value_set_rest v f) as (_ & -> & _).
Qed.

Lemma step_keeps_dirty f op :
  op ≠ Reset → dirtyStateSignal f = DIRTY → dirtyStateSignal (step f op) = DIRTY.
Proof.
  intros Hop Hd. destruct op as [a | | fn |]; simpl.
  - by apply perform_keeps_dirty.
  - done.
  - done.
  - rewrite runEffects_dirtyState. by destruct (_ && _).
Qed.

Lemma run_keeps_dirty ops f :
  Forall (λ op, op ≠ Reset) ops →
  dirtyStateSignal f = DIRTY → dirtyStateSignal (run ops f) = DIRTY.
Proof.
  unfold run. intros Hops. revert f.
  induction Hops as [| op ops Hop _ IH]; intros f Hd; simpl; [done |].
  by apply IH, step_keeps_dirty.
Qed.

Lemma observe_keeps_dirty f v :
  dirtyStateSignal f = DIRTY → dirtyStateSignal (observe f v) = DIRTY.
Proof.
  intros Hd. unfold observe. rewrite runEffects_dirtyState.
  destruct (value_set_rest v f) as (_ & -> & _). by destruct (_ && _).
Qed.

Lemma foldl_observe_keeps_dirty vs f :
  dirtyStateSignal f = DIRTY → dirtyStateSignal (foldl observe f vs) = DIRTY.
Proof.
  revert f. induction vs as [| v vs IH]; intros f Hd; simpl; [done |].
  by apply IH, observe_keeps_dirty.
Qed.

(** The field right after construction and the tracker's first run. *)
Lemma created_cells arg options :
  cells (runEffects (createFormField arg options))
  = (initialValue arg, UNTOUCHED, PRISTINE,
     initialValue arg, false, initialValue arg).
Proof. done. Qed.

(** ** The dirty flag *)

(** C1, the code at the failing input.  A field is created with 0 and
    the tracker takes its baseline; 5 is written and observed; then
    [reset()] is called and the tracker runs once more.  The value is
    back at the default and the field is untouched, but the tracker, whose
    baseline is still 5, has marked the field dirty again. *)
Theorem reset_propagation_marks_dirty_again :
  let f :=
    run [RunEffects; Act (SetValue (JsNumber 5)); RunEffects; Reset; RunEffects]
        (createFormField (PlainValue (JsNumber 0)) None) in
  value f = JsNumber 0 ∧ touched f = false ∧ dirty f = true
  ∧ previousValue (run [RunEffects; Act (SetValue (JsNumber 5)); RunEffects; Reset]
        (createFormField (PlainValue (JsNumber 0)) None)) = JsNumber 5.
Proof. vm_compute. done. Qed.

(** What [reset] does achieve: when it returns, and before the tracker
    runs, a field whose callback does nothing is at its default value,
    pristine and untouched. *)
Lemma reset_before_propagation f :
  onReset f (defaultValue f) (view (restore f)) = [] →
  value (reset f) = defaultValue f ∧ dirty (reset f) = false
  ∧ touched (reset f) = false.
Proof.
  intros Hq. rewrite reset_unfold, Hq. cbn [foldl].
  unfold value, dirty, touched.
  by destruct (restore_cells f) as (-> & -> & -> & _).
Qed.

(** C3, as the code has it.  At a field created with a value other than
    [undefined], the first observation takes the baseline and leaves the
    field pristine; from the first write on (each write differing from the
    value before it) the field is dirty, after every further write; and no
    operation but [reset] takes [dirtyState] from [DIRTY] to [PRISTINE]. *)
Theorem dirty_from_second_observation
    (arg : ValueArg) (options : option OptionsArg) (writes : list JsValue) :
  initialValue arg ≠ JsUndefined →
  each_differs (initialValue arg) writes = true →
  let f0 := runEffects (createFormField arg options) in
  dirty f0 = false
  ∧ (∀ k, (0 < k ≤ length writes)%nat →
       dirty (foldl observe f0 (take k writes)) = true)
  ∧ (∀ f op, op ≠ Reset → dirtyStateSignal f = DIRTY →
       dirtyStateSignal (step f op) = DIRTY).
Proof.
  intros Hu Hw f0. split; [done |]. split; [| apply step_keeps_dirty].
  intros k [Hk Hle].
  destruct k as [| k]; [lia |].
  destruct writes as [| w ws]; [simpl in Hle; lia |].
  simpl in Hw. apply andb_true_iff in Hw as [Hw _].
  apply strict_not_equals_true in Hw.
  simpl. unfold dirty. apply bool_decide_eq_true.
  apply foldl_observe_keeps_dirty.
  by apply observe_with_baseline.
Qed.

(** At a field created with 0, after the writes 5 and 0, each observed,
    the field is dirty. *)
Lemma dirty_from_second_observation_witness :
  dirty (foldl observe
           (runEffects (createFormField (PlainValue (JsNumber 0)) None))
           [JsNumber 5; JsNumber 0])
  = true.
Proof.
  apply (proj1 (proj2 (dirty_from_second_observation
           (PlainValue (JsNumber 0)) None
           [JsNumber 5; JsNumber 0; JsNumber 7]
           ltac:(discriminate) ltac:(reflexivity))) 2%nat).
  simpl. lia.
Defined.

(** C3 as stated fails: a field is created with [undefined] (observed
    first), then 1 is written and observed.  The write differs from the
    value before it, two distinct values have been observed, and the field
    is not dirty. *)
Lemma dirty_from_second_observation_fails_at_undefined :
  let f0 := runEffects (createFormField (PlainValue JsUndefined) None) in
  each_differs JsUndefined [JsNumber 1] = true
  ∧ dirty f0 = false
  ∧ value (observe f0 (JsNumber 1)) = JsNumber 1
  ∧ dirty (observe f0 (JsNumber 1)) = false.
Proof. vm_compute. done. Qed.

(** C10.  Whatever has happened to a field, once the tracker observes
    [undefined] its baseline is [undefined], the very token that says "no
    baseline", and observing the next write, whatever it is, leaves
    [dirtyState] as it was.  So it is for a field created with [undefined]:
    the first write after the first observation leaves it pristine. *)
Theorem undefined_is_no_baseline
    (arg : ValueArg) (options : option OptionsArg) (ops : list Op) (v : JsValue) :
  let g := observe (run ops (createFormField arg options)) JsUndefined in
  previousValue g = JsUndefined
  ∧ dirtyStateSignal (observe g v) = dirtyStateSignal g
  ∧ dirty (observe (runEffects (createFormField (PlainValue JsUndefined) options)) v)
    = false.
Proof.
  intros g.
  assert (previousValue g = JsUndefined) as Hg.
  { apply observe_baseline, reachable_settled. }
  split; [done |]. split; [by apply observe_without_baseline |].
  unfold dirty. apply bool_decide_eq_false.
  by rewrite observe_without_baseline.
Qed.

(** ** Fields with the same cells *)

Lemma cells_runEffects g h :
  cells g = cells h → cells (runEffects g) = cells (runEffects h).
Proof.
  unfold cells, runEffects, dirtyTracker. intros [= Hv Ht Hd Hp Hs Hdef].
  rewrite Hv, Hp, Hs.
  destruct (trackerScheduled h) eqn:E; simpl; [| congruence].
  destruct (_ && _); simpl; congruence.
Qed.

Lemma step_onReset f op :
  onReset (step f op)
  = match op with RegisterOnReset fn => fn | _ => onReset f end.
Proof.
  destruct op as [a | | fn |]; simpl.
  - apply perform_rest.
  - rewrite reset_unfold.
    destruct (foldl_perform_rest
                (onReset f (defaultValue f) (view (restore f))) (restore f))
      as (_ & _ & _ & ->).
    apply restore_rest.
  - done.
  - apply runEffects_rest.
Qed.

Lemma logs_only_cells acts f :
  forallb logs_only acts = true → cells (foldl perform f acts) = cells f.
Proof.
  revert f. induction acts as [| a acts IH]; intros f Ha; simpl; [done |].
  simpl in Ha. apply andb_true_iff in Ha as [Ha Hacts].
  rewrite IH by done. by destruct a.
Qed.

(** ** Reset and the baseline *)

(** When the tracker's run after [reset] marks the field dirty: it has
    been notified, it has a baseline, and the baseline is not the default
    value. *)
Lemma reset_propagation_dirtyState f :
  forallb logs_only (onReset f (defaultValue f) (view (restore f))) = true →
  dirtyStateSignal (runEffects (reset f))
  = if (trackerScheduled f || negb (Object_is (valueSignal f) (defaultValue f)))
       && strict_not_equals (previousValue f) JsUndefined
       && strict_not_equals (defaultValue f) (previousValue f)
    then DIRTY else PRISTINE.
Proof.
  intros Hq. rewrite reset_unfold.
  apply (logs_only_cells _ (restore f)) in Hq.
  apply cells_runEffects in Hq. unfold cells in Hq.
  injection Hq as _ _ -> _ _ _.
  rewrite runEffects_dirtyState.
  by destruct (restore_cells f) as (-> & _ & -> & -> & -> & _).
Qed.

(** C2, the code at the failing input.  A field is created with 0, then
    5 is written and observed.  [reset] leaves the tracker's baseline at
    5: it does not bring it back to the "no baseline" token, and the first
    observation after the reset takes the field from [PRISTINE] to
    [DIRTY].  The token is [undefined], which is also the value a field
    created with [undefined] holds. *)
Lemma reset_keeps_the_baseline :
  let f :=
    run [RunEffects; Act (SetValue (JsNumber 5)); RunEffects]
        (createFormField (PlainValue (JsNumber 0)) None) in
  previousValue (reset f) = JsNumber 5
  ∧ dirtyStateSignal (reset f) = PRISTINE
  ∧ dirtyStateSignal (runEffects (reset f)) = DIRTY
  ∧ previousValue (createFormField (PlainValue (JsNumber 0)) None)
    = valueSignal (createFormField (PlainValue JsUndefined) None).
Proof. vm_compute. done. Qed.

(** ** The touched flag *)

Lemma perform_touchedState f a :
  touchedStateSignal (perform f a)
  = if bool_decide (a = MarkAsTouched) then TOUCHED else touchedStateSignal f.
Proof.
  destruct a; simpl; try done.
  by destruct (value_set_rest v f) as (-> & _).
Qed.

Lemma foldl_perform_touchedState acts f :
  touchedStateSignal (foldl perform f acts)
  = if bool_decide (MarkAsTouched ∈ acts) then TOUCHED else touchedStateSignal f.
Proof.
  revert f. induction acts as [| a acts IH]; intros f.
  - case_bool_decide as Hin; [by apply elem_of_nil in Hin | done].
  - cbn [foldl]. rewrite IH, perform_touchedState.
    rewrite (bool_decide_ext _ _ (elem_of_cons acts MarkAsTouched a)).
    repeat case_bool_decide; try done; exfalso; intuition congruence.
Qed.

Lemma observe_touchedState f v :
  touchedStateSignal (observe f v) = touchedStateSignal f.
Proof.
  unfold observe.
  destruct (runEffects_rest (value_set v f)) as (_ & -> & _).
  apply value_set_rest.
Qed.

Lemma step_touchedState f op :
  touchedStateSignal (step f op) = touchedStateSignal f
  ∨ op = Act MarkAsTouched ∨ op = Reset.
Proof.
  destruct op as [a | | fn |]; simpl.
  - rewrite perform_touchedState. case_bool_decide; subst; auto.
  - auto.
  - auto.
  - left. apply runEffects_rest.
Qed.

Lemma run_keeps_touched ops f :
  Forall (λ op, op ≠ Reset) ops →
  touchedStateSignal f = TOUCHED → touchedStateSignal (run ops f) = TOUCHED.
Proof.
  unfold run. intros Hops. revert f.
  induction Hops as [| op ops Hop _ IH]; intros f Ht; simpl; [done |].
  apply IH. destruct (step_touchedState f op) as [-> | [-> | ->]]; done.
Qed.

(** C4.  [markAsTouched] sets [TOUCHED] whatever the field holds.  An
    operation other than [markAsTouched] and [reset] leaves [touchedState]
    as it is: a write does, and so does the tracker's run after it.
    After [markAsTouched], writes, observed or not, in any number, leave
    the field touched.  [reset] sets [UNTOUCHED]; the field is untouched
    when [reset] returns unless the callback has called [markAsTouched]
    itself. *)
Theorem touched_only_by_marking :
  (∀ f, touchedStateSignal (markAsTouched f) = TOUCHED)
  ∧ (∀ f op, touchedStateSignal (step f op) = touchedStateSignal f
             ∨ op = Act MarkAsTouched ∨ op = Reset)
  ∧ (∀ f v, touchedStateSignal (value_set v f) = touchedStateSignal f
            ∧ touchedStateSignal (observe f v) = touchedStateSignal f)
  ∧ (∀ f (writes : list JsValue),
       touched (foldl observe (markAsTouched f) writes) = true
       ∧ touched (run (Act ∘ SetValue <$> writes) (markAsTouched f)) = true)
  ∧ (∀ f, touchedStateSignal (restore f) = UNTOUCHED
          ∧ touchedStateSignal (reset f)
            = if bool_decide
                   (MarkAsTouched ∈ onReset f (defaultValue f) (view (restore f)))
              then TOUCHED else UNTOUCHED).
Proof.
  split; [done |]. split; [apply step_touchedState |].
  split.
  { intros f v. split; [apply value_set_rest | apply observe_touchedState]. }
  split.
  { intros f writes. unfold touched. split; apply bool_decide_eq_true.
    - generalize (markAsTouched f), (eq_refl : touchedStateSignal (markAsTouched f) = TOUCHED).
      induction writes as [| w ws IH]; intros g Hg; simpl; [done |].
      apply IH. by rewrite observe_touchedState.
    - apply run_keeps_touched; [| done].
      apply Forall_fmap, Forall_true. done. }
  intros f. split; [apply restore_cells |].
  rewrite reset_unfold, foldl_perform_touchedState.
  by destruct (restore_cells f) as (_ & -> & _).
Qed.

(** ** The reset callback *)

(** C8.  The field has one slot for the callback: after
    [registerOnReset fn] the slot holds [fn], and a field on which [fn1]
    and then [fn2] were registered is the field on which [fn2] alone was.
    [reset] runs the callback in the slot, once, on [defaultValue], in the
    field as the three writes leave it: the callback reads the default
    value, [UNTOUCHED] and [PRISTINE].  A callback that logs what it gets
    and reads adds exactly its five entries to the log, whatever was
    registered before it and whatever state the field was in.  [reset]
    leaves the slot as it is. *)
Theorem one_reset_callback_called_last :
  (∀ f fn, onReset (registerOnReset fn f) = fn)
  ∧ (∀ f fn1 fn2,
       registerOnReset fn2 (registerOnReset fn1 f) = registerOnReset fn2 f)
  ∧ (∀ f fn,
       reset (registerOnReset fn f)
       = foldl perform (restore (registerOnReset fn f))
           (fn (defaultValue f)
               {| seen_value := defaultValue f;
                  seen_touchedState := UNTOUCHED;
                  seen_dirtyState := PRISTINE |}))
  ∧ (∀ f, valueSignal (restore f) = defaultValue f
          ∧ touchedStateSignal (restore f) = UNTOUCHED
          ∧ dirtyStateSignal (restore f) = PRISTINE
          ∧ outside (restore f) = outside f)
  ∧ (∀ f fn tag,
       outside (reset (registerOnReset (sample.spy tag) (registerOnReset fn f)))
       = outside f
         ++ [tag; defaultValue f; defaultValue f; JsBoolean false; JsBoolean false])
  ∧ (∀ f, onReset (reset f) = onReset f).
Proof.
  split; [done |]. split; [done |].
  split.
  { intros f fn. rewrite reset_unfold. by rewrite view_restore. }
  split.
  { intros f. destruct (restore_cells f) as (-> & -> & -> & _).
    by destruct (restore_rest f) as (_ & _ & ->). }
  split.
  { intros f fn tag. rewrite reset_unfold, view_restore. simpl.
    destruct (value_set_rest (defaultValue f)
                (registerOnReset (sample.spy tag) (registerOnReset fn f)))
      as (_ & _ & _ & _ & _ & _ & ->).
    by rewrite <- !app_assoc. }
  intros f. apply (step_onReset f Reset).
Qed.

(** ** The validation views *)

Section ValidationViews.
Context `{Collaborator}.

Lemma find_first_match (k : string) (before : list InvalidDetails)
    (e : InvalidDetails) (after : list InvalidDetails) :
  key e = k →
  Forall (λ e', key e' ≠ k) before →
  find (λ e', String.eqb (key e') k) (before ++ e :: after) = Some e.
Proof.
  intros He Hb. induction Hb as [| e' before Hk _ IH]; simpl.
  - by rewrite (proj2 (String.eqb_eq _ _) He).
  - by rewrite (proj2 (String.eqb_neq _ _) Hk).
Qed.

Lemma find_no_match (k : string) (l : list InvalidDetails) :
  Forall (λ e, key e ≠ k) l → find (λ e, String.eqb (key e) k) l = None.
Proof.
  intros Hl. induction Hl as [| e l Hk _ IH]; simpl; [done |].
  by rewrite (proj2 (String.eqb_neq _ _) Hk).
Qed.

(** C5, as the code has it.  [hasError key] is the truth value of what
    reading [errors[key]] gives.  It is true exactly when [errors] holds an
    entry for [key] whose payload is truthy, or holds no entry for [key]
    and inherits a truthy property of that name.  An entry whose payload
    is [undefined], [null], [false], 0 or the empty string does not count. *)
Theorem hasError_iff_truthy (f : FormField) (errorKey : string) :
  hasError f errorKey = true
  ↔ (∃ p, own (errors f) !! errorKey = Some p ∧ ToBoolean p = true)
    ∨ (own (errors f) !! errorKey = None
       ∧ ∃ p, inherited (errors f) !! errorKey = Some p ∧ ToBoolean p = true).
Proof.
  unfold hasError, get.
  destruct (own (errors f) !! errorKey) as [p |] eqn:Eo.
  - split; [intros Hp; left; by exists p |].
    intros [(p' & [= <-] & Hp) | (Hn & _)]; done.
  - destruct (inherited (errors f) !! errorKey) as [p |] eqn:Ei; simpl.
    + split; [intros Hp; right; split; [done | by exists p] |].
      intros [(p' & Hn & _) | (_ & p' & [= <-] & Hp)]; done.
    + split; [done |].
      intros [(p' & Hn & _) | (_ & p' & Hn & _)]; done.
Qed.

(** C6.  [errorMessage key] is the message of the first entry of
    [errorsArray] with that key: of the entry before which no entry has
    the key.  When no entry has the key the result is [undefined] (here
    [None]); the function is total, nothing is thrown. *)
Theorem errorMessage_first_match (f : FormField) (errorKey : string) :
  (∀ before e after,
     errorsArray f = before ++ e :: after →
     key e = errorKey →
     Forall (λ e', key e' ≠ errorKey) before →
     errorMessage f errorKey = message e)
  ∧ (Forall (λ e, key e ≠ errorKey) (errorsArray f) →
     errorMessage f errorKey = None).
Proof.
  unfold errorMessage. split.
  - intros before e after -> He Hb. by rewrite find_first_match.
  - intros Hl. by rewrite find_no_match.
Qed.

(** C9.  [valid] is [state === 'VALID']: it is a function of [state], in
    every state of the field, and no operation writes it. *)
Theorem valid_iff_state_VALID :
  (∀ f, valid f = true ↔ state f = "VALID")
  ∧ (∀ f, valid f = false ↔ state f ≠ "VALID")
  ∧ (∀ f g, state f = state g → valid f = valid g)
  ∧ (∀ arg options ops,
       valid (run ops (createFormField arg options))
       = bool_decide (state (run ops (createFormField arg options)) = "VALID")).
Proof.
  unfold valid. split; [intros f; apply String.eqb_eq |].
  split; [intros f; apply String.eqb_neq |].
  split; [by intros f g -> |].
  intros arg options ops.
  destruct (String.eqb_spec (state (run ops (createFormField arg options))) "VALID")
    as [-> | Hne].
  - done.
  - by rewrite bool_decide_eq_false_2.
Qed.

End ValidationViews.

(** At 0 the validator [positive] reports [true] under its key. *)
Lemma hasError_iff_truthy_witness :
  @hasError sample.collaborator numeric "positive" = true.
Proof.
  apply (proj2 (@hasError_iff_truthy sample.collaborator numeric "positive")).
  left. exists (JsBoolean true). split; vm_compute; reflexivity.
Defined.

(** C5 as stated fails.  At 0 the validator [atLeast10] reports the
    number it got: [errors] holds the entry "atLeast10", with payload 0,
    and [hasError "atLeast10"] is false. *)
Lemma hasError_false_on_falsy_payload :
  let f :=
    createFormField (PlainValue (JsNumber 0))
      (Some (OptionsObject {| validators := Some [sample.atLeast10] |})) in
  own (@errors sample.collaborator f) !! "atLeast10" = Some (JsNumber 0)
  ∧ @hasError sample.collaborator f "atLeast10" = false.
Proof. vm_compute. done. Qed.

(** At 0 both validators fail: the message for "atLeast10" is that of
    the second entry, the first having another key, and there is none
    for "required". *)
Lemma errorMessage_first_match_witness :
  let f :=
    createFormField (PlainValue (JsNumber 0))
      (Some (OptionsObject
               {| validators := Some [sample.positive; sample.atLeast10] |})) in
  @errorMessage sample.collaborator f "atLeast10" = Some "must be 10 or more"
  ∧ @errorMessage sample.collaborator f "required" = None.
Proof.
  split.
  - apply (proj1 (@errorMessage_first_match sample.collaborator
                    (createFormField (PlainValue (JsNumber 0))
                       (Some (OptionsObject
                          {| validators := Some [sample.positive; sample.atLeast10] |})))
                    "atLeast10")
             [{| key := "positive"; message := Some "must be positive" |}]
             {| key := "atLeast10"; message := Some "must be 10 or more" |}
             []).
    + reflexivity.
    + reflexivity.
    + repeat constructor. discriminate.
  - apply (proj2 (@errorMessage_first_match sample.collaborator
                    (createFormField (PlainValue (JsNumber 0))
                       (Some (OptionsObject
                          {| validators := Some [sample.positive; sample.atLeast10] |})))
                    "required")).
    repeat constructor; discriminate.
Defined.

(** ** The configured validators *)

(** C7.  A field created without options, with options that carry no
    validator list, or by a creator whose options carry none, has no
    validator, whichever is asked for and whatever has happened to the
    field since; neither has a field whose list is empty. *)
Theorem hasValidator_without_validators :
  (∀ arg ops validator,
     hasValidator (run ops (createFormField arg None)) validator = false)
  ∧ (∀ arg ops validator,
       hasValidator
         (run ops (createFormField arg
                     (Some (OptionsObject {| validators := None |}))))
         validator = false)
  ∧ (∀ arg creator ops validator,
       validators (creator (initialValue arg)) = None →
       hasValidator
         (run ops (createFormField arg (Some (OptionsCreator creator))))
         validator = false)
  ∧ (∀ arg ops validator,
       hasValidator
         (run ops (createFormField arg
                     (Some (OptionsObject {| validators := Some [] |}))))
         validator = false).
Proof.
  unfold hasValidator.
  split; [| split; [| split]].
  - intros arg ops validator.
    by destruct (run_rest ops (createFormField arg None)) as (_ & ->).
  - intros arg ops validator.
    by destruct (run_rest ops (createFormField arg
         (Some (OptionsObject {| validators := None |})))) as (_ & ->).
  - intros arg creator ops validator Hc.
    destruct (run_rest ops (createFormField arg (Some (OptionsCreator creator))))
      as (_ & ->).
    simpl. by rewrite Hc.
  - intros arg ops validator.
    destruct (run_rest ops (createFormField arg
         (Some (OptionsObject {| validators := Some [] |})))) as (_ & ->).
    reflexivity.
Qed.

(** A field over a shared signal, whose creator configures no validator. *)
Lemma hasValidator_without_validators_witness :
  hasValidator
    (run [RunEffects; Act (SetValue (JsNumber 3)); Reset]
       (createFormField (WritableSignal (JsNumber 1))
          (Some (OptionsCreator (λ _, {| validators := None |})))))
    sample.positive
  = false.
Proof.
  apply (proj1 (proj2 (proj2 hasValidator_without_validators))
           (WritableSignal (JsNumber 1)) (λ _, {| validators := None |})).
  reflexivity.
Defined.

(** ** Further properties of the field *)

Lemma perform_valueSignal f a :
  writes_value a = false → valueSignal (perform f a) = valueSignal f.
Proof. by destruct a. Qed.

Lemma foldl_perform_valueSignal acts f :
  forallb (λ a, negb (writes_value a)) acts = true →
  valueSignal (foldl perform f acts) = valueSignal f.
Proof.
  revert f. induction acts as [| a acts IH]; intros f Ha; simpl; [done |].
  simpl in Ha. apply andb_true_iff in Ha as [Ha Hacts].
  rewrite IH by done. apply perform_valueSignal. by apply negb_true_iff.
Qed.

Lemma logs_only_no_write acts :
  forallb logs_only acts = true →
  forallb (λ a, negb (writes_value a)) acts = true.
Proof.
  induction acts as [| a acts IH]; simpl; [done |].
  intros [Ha Hacts]%andb_true_iff. rewrite IH by done.
  by destruct a.
Qed.

(** The state a history of writes, none of them observed, leaves. *)
Lemma run_writes ws f :
  valueSignal (run (Act ∘ SetValue <$> ws) f) = default (valueSignal f) (last ws)
  ∧ previousValue (run (Act ∘ SetValue <$> ws) f) = previousValue f
  ∧ dirtyStateSignal (run (Act ∘ SetValue <$> ws) f) = dirtyStateSignal f
  ∧ touchedStateSignal (run (Act ∘ SetValue <$> ws) f) = touchedStateSignal f.
Proof.
  unfold run. revert f. induction ws as [| w ws IH]; intros f; [done |].
  cbn [fmap list_fmap foldl step perform compose].
  destruct (IH (value_set w f)) as (-> & -> & -> & ->).
  rewrite value_set_valueSignal, last_cons.
  destruct (value_set_rest w f) as (-> & -> & -> & _).
  by destruct (last ws).
Qed.

(** X1.  [defaultValue] is the value the field (or the shared signal it
    was given) held at construction, after any history: whatever has been
    written since, by the owner or from outside, the writes of [reset] put
    that value back, and so does [reset] when its callback writes no
    value. *)
Theorem reset_writes_construction_value
    (arg : ValueArg) (options : option OptionsArg) (ops : list Op) :
  let f := run ops (createFormField arg options) in
  defaultValue f = initialValue arg
  ∧ valueSignal (restore f) = initialValue arg
  ∧ (forallb (λ a, negb (writes_value a))
       (onReset f (defaultValue f) (view (restore f))) = true →
     value (reset f) = initialValue arg).
Proof.
  intros f.
  assert (defaultValue f = initialValue arg) as Hd.
  { subst f. by destruct (run_rest ops (createFormField arg options)) as (-> & _). }
  split; [done |].
  destruct (restore_cells f) as (Hv & _).
  split; [congruence |].
  intros Hq. unfold value. rewrite reset_unfold.
  rewrite foldl_perform_valueSignal by done. congruence.
Qed.

(** A field over a shared signal holding 1; 3 and 7 are written, the
    field is reset: it holds 1. *)
Lemma reset_writes_construction_value_witness :
  value (reset (run [RunEffects; Act (SetValue (JsNumber 3)); RunEffects;
                     Act (SetValue (JsNumber 7))]
                  (createFormField (WritableSignal (JsNumber 1)) None)))
  = JsNumber 1.
Proof.
  apply (proj2 (proj2 (reset_writes_construction_value
           (WritableSignal (JsNumber 1)) None
           [RunEffects; Act (SetValue (JsNumber 3)); RunEffects;
            Act (SetValue (JsNumber 7))]))).
  reflexivity.
Defined.

(** X2.  Writes made before the tracker has run for the first time never
    make the field dirty, however many and whatever they write: the first
    run only takes the last of them for baseline. *)
Theorem writes_before_first_run_never_dirty
    (arg : ValueArg) (options : option OptionsArg) (ws : list JsValue) :
  let f := runEffects (run (Act ∘ SetValue <$> ws) (createFormField arg options)) in
  dirty f = false
  ∧ value f = default (initialValue arg) (last ws)
  ∧ previousValue f = value f.
Proof.
  intros f. subst f. unfold dirty, value.
  destruct (run_writes ws (createFormField arg options)) as (Hv & Hp & Hd & _).
  rewrite runEffects_dirtyState, Hp, Hd. simpl.
  rewrite andb_false_r. simpl.
  destruct (runEffects_rest (run (Act ∘ SetValue <$> ws)
              (createFormField arg options))) as (-> & _).
  rewrite runEffects_baseline by apply reachable_settled.
  by rewrite Hv.
Qed.

(** X4.  A field is reset, the runtime makes its pass, and the field is
    reset again: after the next pass the field is at its default value,
    pristine and untouched, whatever its history (the callback writing
    nothing to the field).  The first pass has brought the tracker's
    baseline to the default value. *)
Theorem second_reset_leaves_pristine
    (arg : ValueArg) (options : option OptionsArg) (ops : list Op) :
  let f := run ops (createFormField arg options) in
  forallb logs_only (onReset f (defaultValue f) (view (restore f))) = true →
  let g := runEffects (reset (runEffects (reset f))) in
  value g = initialValue arg ∧ dirty g = false ∧ touched g = false.
Proof.
  intros f Hq g.
  set (h := runEffects (reset f)).
  assert (settled (reset f)) as Hrf.
  { subst f. apply (settled_step _ Reset), reachable_settled. }
  assert (defaultValue f = initialValue arg) as Hdf.
  { subst f. by destruct (run_rest ops (createFormField arg options)) as (-> & _). }
  assert (valueSignal (reset f) = defaultValue f) as Hvr.
  { rewrite reset_unfold.
    rewrite foldl_perform_valueSignal by by apply logs_only_no_write.
    apply restore_cells. }
  assert (defaultValue h = defaultValue f ∧ onReset h = onReset f
          ∧ valueSignal h = defaultValue f ∧ previousValue h = defaultValue f
          ∧ trackerScheduled h = false) as (Hd & Ho & Hv & Hp & Hs).
  { subst h.
    rewrite runEffects_baseline by done.
    destruct (runEffects_rest (reset f)) as (-> & _ & -> & -> & _ & -> & _).
    destruct (step_rest f Reset) as (Hd' & _). simpl in Hd'.
    pose proof (step_onReset f Reset) as Ho'. simpl in Ho'.
    auto. }
  assert (forallb logs_only (onReset h (defaultValue h) (view (restore h))) = true)
    as Hq'.
  { rewrite Ho, Hd, view_restore, Hd. by rewrite view_restore in Hq. }
  subst g. fold h.
  unfold value, dirty, touched.
  destruct (runEffects_rest (reset h)) as (-> & -> & _).
  rewrite (reset_propagation_dirtyState h Hq').
  rewrite Hs, Hv, Hd. unfold Object_is.
  rewrite (bool_decide_eq_true_2 (defaultValue f = defaultValue f)) by done.
  simpl.
  pose proof (logs_only_cells _ (restore h) Hq') as Hc.
  rewrite <- reset_unfold in Hc. unfold cells in Hc.
  injection Hc as -> -> _ _ _ _.
  rewrite value_set_valueSignal, Hd, Hdf. done.
Qed.

(** 5 is written over 0 and observed; the first reset and pass leave the
    field dirty, the second leave it pristine. *)
Lemma second_reset_leaves_pristine_witness :
  let f :=
    run [RunEffects; Act (SetValue (JsNumber 5)); RunEffects]
        (createFormField (PlainValue (JsNumber 0)) None) in
  dirty (runEffects (reset f)) = true
  ∧ dirty (runEffects (reset (runEffects (reset f)))) = false.
Proof.
  split; [reflexivity |].
  apply (second_reset_leaves_pristine (PlainValue (JsNumber 0)) None
           [RunEffects; Act (SetValue (JsNumber 5)); RunEffects]).
  reflexivity.
Defined.

(** X8.  A history in which nothing writes the value or calls
    [markAsDirty] never makes the field dirty: marking it touched,
    resetting it and the passes of the runtime, in any number and order,
    leave it pristine and at its initial value. *)
Theorem pristine_without_writes
    (arg : ValueArg) (options : option OptionsArg) (ops : list Op) :
  forallb leaves_pristine ops = true →
  let f := run ops (createFormField arg options) in
  dirty f = false ∧ value f = initialValue arg.
Proof.
  intros Hops f.
  assert (valueSignal f = initialValue arg
          ∧ dirtyStateSignal f = PRISTINE
          ∧ defaultValue f = initialValue arg
          ∧ onReset f = (λ _ _, [])
          ∧ (previousValue f = JsUndefined ∨ previousValue f = initialValue arg))
    as (Hv & Hd & _).
  { subst f. unfold run.
    generalize (createFormField arg options),
      (conj eq_refl (conj eq_refl (conj eq_refl (conj eq_refl (or_introl eq_refl))))
       : valueSignal (createFormField arg options) = initialValue arg
         ∧ dirtyStateSignal (createFormField arg options) = PRISTINE
         ∧ defaultValue (createFormField arg options) = initialValue arg
         ∧ onReset (createFormField arg options) = (λ _ _, [])
         ∧ (previousValue (createFormField arg options) = JsUndefined
            ∨ previousValue (createFormField arg options) = initialValue arg)).
    induction ops as [| op ops IH]; intros g Hg; [done |].
    simpl in Hops. apply andb_true_iff in Hops as [Hop Hops].
    cbn [foldl]. apply IH; [done |].
    destruct Hg as (Hv & Hd & Hdef & Ho & Hp).
    destruct op as [[v | | | v] | | fn |]; try done; simpl.
    - rewrite reset_unfold, Ho. cbn [foldl].
      destruct (restore_cells g) as (-> & _ & -> & -> & _ & ->).
      destruct (restore_rest g) as (_ & -> & _). auto.
    - rewrite runEffects_dirtyState, runEffects_previousValue.
      destruct (runEffects_rest g) as (-> & _ & _ & -> & _ & -> & _).
      rewrite Hv, Hd.
      split; [done |]. split.
      + destruct Hp as [-> | ->];
          rewrite strict_not_equals_refl, ?andb_false_r; done.
      + split; [done |]. split; [done |].
        destruct (trackerScheduled g); auto. }
  unfold dirty, value. by rewrite Hd, Hv.
Qed.

Lemma pristine_without_writes_witness :
  dirty (run [Act MarkAsTouched; RunEffects; Reset; RunEffects; Reset]
           (createFormField (PlainValue (JsString "a")) None))
  = false.
Proof.
  apply (pristine_without_writes (PlainValue (JsString "a")) None
           [Act MarkAsTouched; RunEffects; Reset; RunEffects; Reset]).
  reflexivity.
Defined.

(** X9.  The options are resolved once, when the field is created: a
    creator is applied to the value held then, and no operation changes
    what it returned.  So the answer of [hasValidator] for a reference is
    the same after any history. *)
Theorem options_fixed_at_construction
    (arg : ValueArg) (options : option OptionsArg) (ops : list Op) :
  finalOptions (run ops (createFormField arg options))
  = match options with
    | Some (OptionsCreator creator) => Some (creator (initialValue arg))
    | Some (OptionsObject o) => Some o
    | None => None
    end
  ∧ (∀ validator,
       hasValidator (run ops (createFormField arg options)) validator
       = hasValidator (createFormField arg options) validator).
Proof.
  destruct (run_rest ops (createFormField arg options)) as (_ & Ho).
  split; [by rewrite Ho |].
  intros validator. unfold hasValidator. by rewrite Ho.
Qed.

(** X10.  After every pass of the runtime the tracker is idle and its
    baseline is the value the field holds; and in every state the field
    can reach, an idle tracker has the value held for baseline. *)
Theorem baseline_is_value_after_pass
    (arg : ValueArg) (options : option OptionsArg) (ops : list Op) :
  let f := run ops (createFormField arg options) in
  previousValue (runEffects f) = valueSignal (runEffects f)
  ∧ trackerScheduled (runEffects f) = false
  ∧ (trackerScheduled f = false → previousValue f = valueSignal f).
Proof.
  intros f.
  assert (settled f) as Hf by apply reachable_settled.
  rewrite runEffects_baseline by done.
  destruct (runEffects_rest f) as (-> & _ & -> & _). auto.
Qed.

(** ** The configuration flags *)

Lemma core_configured_value_set v F :
  core (configured_value_set v F) = value_set v (core F).
Proof.
  unfold configured_value_set.
  destruct (Object_is _ _) eqn:E; [| done].
  unfold value_set. by rewrite E.
Qed.

Lemma core_configured_perform F a :
  core (configured_perform F a) = perform (core F) a.
Proof. destruct a; simpl; [apply core_configured_value_set | done ..]. Qed.

Lemma core_foldl_configured_perform acts F :
  core (foldl configured_perform F acts) = foldl perform (core F) acts.
Proof.
  revert F. induction acts as [| a acts IH]; intros F; simpl; [done |].
  by rewrite IH, core_configured_perform.
Qed.

Lemma core_configured_restore F : core (configured_restore F) = restore (core F).
Proof.
  unfold configured_restore, restore. simpl.
  by rewrite core_configured_value_set.
Qed.

Lemma core_configured_reset F : core (configured_reset F) = reset (core F).
Proof.
  unfold configured_reset, reset.
  by rewrite core_foldl_configured_perform, core_configured_restore.
Qed.

Lemma core_configured_step F op :
  core (configured_step F op)
  = match field_op op with Some o => step (core F) o | None => core F end.
Proof.
  destruct op as [[a | | fn |] | name v]; simpl.
  - apply core_configured_perform.
  - apply core_configured_reset.
  - done.
  - done.
  - unfold outside_set. by case_bool_decide.
Qed.

(** *** The signals of the flags between two passes *)

Lemma flagSignal_notifyFlag c : flagSignal (notifyFlag c) = flagSignal c.
Proof. unfold notifyFlag. by destruct (flagPredicate c). Qed.

Lemma flagPredicate_notifyFlag c : flagPredicate (notifyFlag c) = flagPredicate c.
Proof. unfold notifyFlag. by destruct (flagPredicate c) eqn:E. Qed.

Lemma flagPredicate_runFlag v world c :
  flagPredicate (runFlag v world c) = flagPredicate c.
Proof.
  unfold runFlag. destruct (flagScheduled c); [| done].
  by destruct (flagPredicate c) eqn:E.
Qed.

Lemma configured_value_set_flags v F :
  flagSignals (configured_value_set v F) = flagSignals F
  ∧ flagPredicates (configured_value_set v F) = flagPredicates F
  ∧ signals (configured_value_set v F) = signals F.
Proof.
  unfold configured_value_set. destruct (Object_is _ _); [done |].
  unfold flagSignals, flagPredicates, hiddenSignal, disabledSignal,
    readOnlySignal. simpl.
  by rewrite !flagSignal_notifyFlag, !flagPredicate_notifyFlag.
Qed.

Lemma configured_perform_flags F a :
  flagSignals (configured_perform F a) = flagSignals F
  ∧ flagPredicates (configured_perform F a) = flagPredicates F
  ∧ signals (configured_perform F a) = signals F.
Proof. destruct a; simpl; [apply configured_value_set_flags | done ..]. Qed.

Lemma foldl_configured_perform_flags acts F :
  flagSignals (foldl configured_perform F acts) = flagSignals F
  ∧ flagPredicates (foldl configured_perform F acts) = flagPredicates F
  ∧ signals (foldl configured_perform F acts) = signals F.
Proof.
  revert F. induction acts as [| a acts IH]; intros F; simpl; [done |].
  destruct (IH (configured_perform F a)) as (-> & -> & ->).
  apply configured_perform_flags.
Qed.

Lemma configured_reset_flags F :
  flagSignals (configured_reset F) = flagSignals F
  ∧ flagPredicates (configured_reset F) = flagPredicates F
  ∧ signals (configured_reset F) = signals F.
Proof.
  unfold configured_reset.
  destruct (foldl_configured_perform_flags
    (onReset (core (configured_restore F))
       (defaultValue (core (configured_restore F)))
       (view (core (configured_restore F))))
    (configured_restore F)) as (-> & -> & ->).
  unfold configured_restore.
  apply (configured_value_set_flags (defaultValue (core F)) F).
Qed.

Lemma outside_set_flags name v F :
  flagSignals (outside_set name v F) = flagSignals F
  ∧ flagPredicates (outside_set name v F) = flagPredicates F.
Proof.
  unfold outside_set. case_bool_decide; [done |].
  unfold flagSignals, flagPredicates, hiddenSignal, disabledSignal,
    readOnlySignal. simpl.
  by rewrite !flagSignal_notifyFlag, !flagPredicate_notifyFlag.
Qed.

Lemma configured_step_predicates F op :
  flagPredicates (configured_step F op) = flagPredicates F.
Proof.
  destruct op as [[a | | fn |] | name v]; simpl.
  - apply configured_perform_flags.
  - apply configured_reset_flags.
  - done.
  - unfold flagPredicates. simpl. by rewrite !flagPredicate_runFlag.
  - apply outside_set_flags.
Qed.

Lemma configured_run_predicates ops F :
  flagPredicates (configured_run ops F) = flagPredicates F.
Proof.
  unfold configured_run. revert F.
  induction ops as [| op ops IH]; intros F; simpl; [done |].
  by rewrite IH, configured_step_predicates.
Qed.

(** *** Flags and predicates *)

Lemma flag_current_notifyFlag v world v' world' c :
  flag_current v world c → flag_current v' world' (notifyFlag c).
Proof.
  destruct c as [s sc [p |]]; unfold flag_current, notifyFlag; simpl.
  - intros _ [=].
  - done.
Qed.

Lemma flag_current_runFlag v world c :
  flag_current v world c → flag_current v world (runFlag v world c).
Proof.
  by destruct c as [s [|] [p |]]; unfold flag_current, runFlag; simpl.
Qed.

Lemma flags_current_notifyFlags F g world :
  flags_current F →
  flags_current
    {| core := g; signals := world;
       hiddenFlag := notifyFlag (hiddenFlag F);
       disabledFlag := notifyFlag (disabledFlag F);
       readOnlyFlag := notifyFlag (readOnlyFlag F) |}.
Proof.
  intros (Hh & Hd & Hr). unfold flags_current. simpl.
  split; [| split];
    eapply flag_current_notifyFlag; eassumption.
Qed.

Lemma flags_current_with_core g F :
  valueSignal (g (core F)) = valueSignal (core F) →
  flags_current F → flags_current (with_core g F).
Proof. unfold flags_current. simpl. by intros ->. Qed.

Lemma flags_current_value_set v F :
  flags_current F → flags_current (configured_value_set v F).
Proof.
  intros HF. unfold configured_value_set.
  destruct (Object_is _ _); [done |].
  by apply (flags_current_notifyFlags F).
Qed.

Lemma flags_current_perform F a :
  flags_current F → flags_current (configured_perform F a).
Proof.
  intros HF. destruct a; simpl.
  - by apply flags_current_value_set.
  - by apply flags_current_with_core.
  - by apply flags_current_with_core.
  - by apply flags_current_with_core.
Qed.

Lemma flags_current_foldl_perform acts F :
  flags_current F → flags_current (foldl configured_perform F acts).
Proof.
  revert F. induction acts as [| a acts IH]; intros F HF; simpl; [done |].
  by apply IH, flags_current_perform.
Qed.

Lemma flags_current_step F op :
  flags_current F → flags_current (configured_step F op).
Proof.
  intros HF. destruct op as [[a | | fn |] | name v]; simpl.
  - by apply flags_current_perform.
  - unfold configured_reset. apply flags_current_foldl_perform.
    unfold configured_restore.
    apply flags_current_with_core; [done |].
    apply flags_current_with_core; [done |].
    by apply flags_current_value_set.
  - by apply flags_current_with_core.
  - destruct HF as (Hh & Hd & Hr).
    unfold flags_current, configured_runEffects. simpl.
    destruct (runEffects_rest (core F)) as (-> & _).
    split; [| split]; by apply flag_current_runFlag.
  - unfold outside_set. case_bool_decide; [done |].
    by apply (flags_current_notifyFlags F).
Qed.

Lemma flags_current_create world arg options :
  flags_current (createConfiguredField world arg options).
Proof.
  unfold flags_current, flag_current, createConfiguredField, createFlag. simpl.
  destruct (resolveOptions arg options) as [o |]; simpl; [| done].
  by destruct (hidden o), (disabled o), (readOnly o).
Qed.

Lemma flags_current_run ops F :
  flags_current F → flags_current (configured_run ops F).
Proof.
  unfold configured_run. revert F.
  induction ops as [| op ops IH]; intros F HF; simpl; [done |].
  by apply IH, flags_current_step.
Qed.

(** X11.  A flag for which the options give no predicate is [false] in
    every state the field can reach, whatever is written to the field or
    outside it; with no options at all the three flags are. *)
Theorem flag_without_predicate_stays_false
    (world : gmap string JsValue) (arg : ValueArg)
    (options : option FullOptionsArg) (ops : list ConfiguredOp) :
  let F := configured_run ops (createConfiguredField world arg options) in
  (resolveOptions arg options ≫= hidden = None → hiddenSignal F = false)
  ∧ (resolveOptions arg options ≫= disabled = None → disabledSignal F = false)
  ∧ (resolveOptions arg options ≫= readOnly = None → readOnlySignal F = false)
  ∧ (options = None → flagSignals F = (false, false, false)).
Proof.
  intros F.
  pose proof (flags_current_run ops _ (flags_current_create world arg options))
    as (Hh & Hd & Hr).
  pose proof (configured_run_predicates ops
                (createConfiguredField world arg options)) as Hp.
  fold F in Hh, Hd, Hr, Hp.
  unfold flagPredicates in Hp. simpl in Hp.
  injection Hp as Hph Hpd Hpr.
  unfold flag_current in Hh, Hd, Hr.
  assert (resolveOptions arg options ≫= hidden = None → hiddenSignal F = false)
    as H1.
  { intros E. rewrite Hph, E in Hh. apply Hh. }
  assert (resolveOptions arg options ≫= disabled = None → disabledSignal F = false)
    as H2.
  { intros E. rewrite Hpd, E in Hd. apply Hd. }
  assert (resolveOptions arg options ≫= readOnly = None → readOnlySignal F = false)
    as H3.
  { intros E. rewrite Hpr, E in Hr. apply Hr. }
  repeat split; try done.
  intros ->. unfold flagSignals. by rewrite H1, H2, H3.
Qed.

(** In the lockable form, which has no predicate for [hidden], the
    signal outside is written and the field is written and reset. *)
Lemma flag_without_predicate_stays_false_witness :
  hiddenSignal
    (configured_run
       [OutsideSet "locked" (JsBoolean true); OnField RunEffects;
        OnField (Act (SetValue (JsString "b"))); OnField Reset;
        OnField RunEffects]
       lockable)
  = false.
Proof.
  apply (proj1 (flag_without_predicate_stays_false
           {[ "locked" := JsBoolean false ]}
           (PlainValue (JsString "a"))
           (Some (FullObject
              {| base := {| validators := None |};
                 hidden := None;
                 disabled := Some (λ _ world,
                   ToBoolean (default JsUndefined (world !! "locked")));
                 readOnly := None |}))
           [OutsideSet "locked" (JsBoolean true); OnField RunEffects;
            OnField (Act (SetValue (JsString "b"))); OnField Reset;
            OnField RunEffects])).
  reflexivity.
Defined.

(** X12.  After every pass of the runtime a flag whose predicate the
    options give holds what the predicate returns on the value the field
    holds and on the signals outside as they are then, whatever the
    history; the change of a signal outside reaches the flag with no call
    on the field.  Until the first pass the three flags are [false],
    whatever their predicates return. *)
Theorem flags_follow_predicates_after_pass
    (world : gmap string JsValue) (arg : ValueArg)
    (options : option FullOptionsArg) (ops : list ConfiguredOp) :
  let F :=
    configured_runEffects
      (configured_run ops (createConfiguredField world arg options)) in
  (∀ p, resolveOptions arg options ≫= hidden = Some p →
        hiddenSignal F = p (valueSignal (core F)) (signals F))
  ∧ (∀ p, resolveOptions arg options ≫= disabled = Some p →
          disabledSignal F = p (valueSignal (core F)) (signals F))
  ∧ (∀ p, resolveOptions arg options ≫= readOnly = Some p →
          readOnlySignal F = p (valueSignal (core F)) (signals F))
  ∧ flagSignals (createConfiguredField world arg options) = (false, false, false).
Proof.
  intros F.
  set (G := configured_run ops (createConfiguredField world arg options)).
  pose proof (configured_run_predicates ops
                (createConfiguredField world arg options)) as Hp.
  fold G in Hp. unfold flagPredicates in Hp. simpl in Hp.
  injection Hp as Hph Hpd Hpr.
  pose proof (flags_current_run ops _ (flags_current_create world arg options))
    as (Hh & Hd & Hr).
  fold G in Hh, Hd, Hr. unfold flag_current in Hh, Hd, Hr.
  assert (valueSignal (core F) = valueSignal (core G)) as Hv.
  { subst F. simpl. apply runEffects_rest. }
  assert (∀ c p, flagPredicate c = Some p →
            (flagScheduled c = false →
             flagSignal c = p (valueSignal (core G)) (signals G)) →
            flagSignal (runFlag (valueSignal (core G)) (signals G) c)
            = p (valueSignal (core F)) (signals F)) as Hflag.
  { intros c p E Hc. rewrite Hv. subst F. simpl. unfold runFlag.
    destruct (flagScheduled c); [by rewrite E | by apply Hc]. }
  repeat split.
  - intros p E. apply (Hflag (hiddenFlag G)); [by rewrite Hph |].
    by rewrite Hph, E in Hh.
  - intros p E. apply (Hflag (disabledFlag G)); [by rewrite Hpd |].
    by rewrite Hpd, E in Hd.
  - intros p E. apply (Hflag (readOnlyFlag G)); [by rewrite Hpr |].
    by rewrite Hpr, E in Hr.
Qed.

(** The lockable form is created, the signal outside is set, and the
    runtime makes its pass: the field is disabled. *)
Lemma flags_follow_predicates_after_pass_witness :
  disabledSignal (configured_runEffects lockable) = false
  ∧ disabledSignal
      (configured_runEffects
         (configured_run [OnField RunEffects; OutsideSet "locked" (JsBoolean true)]
            lockable))
    = true.
Proof.
  split; [reflexivity |]. unfold lockable.
  rewrite (proj1 (proj2 (flags_follow_predicates_after_pass
             {[ "locked" := JsBoolean false ]}
             (PlainValue (JsString "a"))
             (Some (FullObject
                {| base := {| validators := None |};
                   hidden := None;
                   disabled := Some (λ _ world,
                     ToBoolean (default JsUndefined (world !! "locked")));
                   readOnly := None |}))
             [OnField RunEffects; OutsideSet "locked" (JsBoolean true)]))
           (λ _ world, ToBoolean (default JsUndefined (world !! "locked")))
           eq_refl).
  reflexivity.
Defined.

(** X13.  Only a pass of the runtime changes a flag.  A write to the
    field, [markAsTouched], [markAsDirty], [registerOnReset], a write to
    a signal outside and [reset] itself leave [hidden], [disabled] and
    [readOnly] as they are: [reset] does not reset them. *)
Theorem flags_change_only_in_pass (F : ConfiguredField) (op : ConfiguredOp) :
  op = OnField RunEffects
  ∨ flagSignals (configured_step F op) = flagSignals F.
Proof.
  destruct op as [[a | | fn |] | name v]; simpl; auto; right.
  - apply configured_perform_flags.
  - apply configured_reset_flags.
  - apply outside_set_flags.
Qed.

(** X14.  The flags never act on the field: with its flags, their
    predicates and the signals outside, a field goes through the states
    it goes through without them, under the operations on the field of
    the same history. *)
Theorem flags_never_act_on_field
    (world : gmap string JsValue) (arg : ValueArg)
    (options : option FullOptionsArg) (ops : list ConfiguredOp) :
  core (configured_run ops (createConfiguredField world arg options))
  = run (omap field_op ops) (createFormField arg (coreOptions <$> options)).
Proof.
  unfold configured_run, run.
  change (createFormField arg (coreOptions <$> options))
    with (core (createConfiguredField world arg options)).
  generalize (createConfiguredField world arg options).
  induction ops as [| op ops IH]; intros F; [done |].
  cbn [foldl]. rewrite IH, core_configured_step.
  destruct op as [o | name v]; done.
Qed.

(** ** The value *)

(** X7.  Only a write and [reset] change the value: [markAsTouched],
    [markAsDirty], [registerOnReset], a mark outside and a pass of the
    runtime leave the field holding what it held, and so does any history
    made of them. *)
Theorem value_changes_only_by_write_or_reset :
  (∀ f op, (∃ v, op = Act (SetValue v)) ∨ op = Reset
           ∨ valueSignal (step f op) = valueSignal f)
  ∧ (∀ f ops,
       forallb (λ op, match op with
                      | Act (SetValue _) | Reset => false
                      | _ => true
                      end) ops = true →
       valueSignal (run ops f) = valueSignal f).
Proof.
  assert (∀ f op, (∃ v, op = Act (SetValue v)) ∨ op = Reset
                  ∨ valueSignal (step f op) = valueSignal f) as Hstep.
  { intros f op.
    destruct op as [[v | | | v] | | fn |]; eauto.
    right; right. apply runEffects_rest. }
  split; [done |].
  intros f ops. unfold run. revert f.
  induction ops as [| op ops IH]; intros f Hops; [done |].
  simpl in Hops. apply andb_true_iff in Hops as [Hop Hops].
  cbn [foldl]. rewrite IH by done.
  destruct (Hstep f op) as [[v ->] | [-> | Hv]]; done.
Qed.

Lemma value_changes_only_by_write_or_reset_witness :
  valueSignal
    (run [Act MarkAsDirty; RunEffects; RegisterOnReset (sample.spy JsNull);
          Act MarkAsTouched; RunEffects]
       (createFormField (PlainValue (JsNumber 4)) None))
  = JsNumber 4.
Proof.
  apply (proj2 value_changes_only_by_write_or_reset
           (createFormField (PlainValue (JsNumber 4)) None)
           [Act MarkAsDirty; RunEffects; RegisterOnReset (sample.spy JsNull);
            Act MarkAsTouched; RunEffects]).
  reflexivity.
Defined.

(** ** The tracker on every number *)

Lemma exact_strict_equals_refl a : a ≠ exact.NaN → exact.strict_equals a a = true.
Proof.
  destruct a as [v | |]; simpl; [| done ..].
  intros _. by apply bool_decide_eq_true.
Qed.

Lemma exact_strict_not_equals_NaN a : exact.strict_not_equals a exact.NaN = true.
Proof. unfold exact.strict_not_equals. by destruct a. Qed.

Lemma exact_strict_not_equals_NaN_l a : exact.strict_not_equals exact.NaN a = true.
Proof. done. Qed.

Lemma exact_value_set_valueSignal v f :
  exact.valueSignal (exact.value_set v f) = v.
Proof.
  unfold exact.value_set, exact.Object_is. case_bool_decide; [congruence | done].
Qed.

Lemma exact_value_set_rest v f :
  exact.touchedStateSignal (exact.value_set v f) = exact.touchedStateSignal f
  ∧ exact.dirtyStateSignal (exact.value_set v f) = exact.dirtyStateSignal f
  ∧ exact.previousValue (exact.value_set v f) = exact.previousValue f
  ∧ exact.defaultValue (exact.value_set v f) = exact.defaultValue f
  ∧ exact.trackerScheduled (exact.value_set v f)
    = exact.trackerScheduled f || negb (exact.Object_is (exact.valueSignal f) v).
Proof.
  unfold exact.value_set. destruct (exact.Object_is _ _); simpl.
  - by rewrite orb_false_r.
  - by rewrite orb_true_r.
Qed.

Lemma exact_runEffects_cells f :
  exact.valueSignal (exact.runEffects f) = exact.valueSignal f
  ∧ exact.touchedStateSignal (exact.runEffects f) = exact.touchedStateSignal f
  ∧ exact.trackerScheduled (exact.runEffects f) = false
  ∧ exact.defaultValue (exact.runEffects f) = exact.defaultValue f
  ∧ exact.previousValue (exact.runEffects f)
    = (if exact.trackerScheduled f then exact.valueSignal f
       else exact.previousValue f)
  ∧ exact.dirtyStateSignal (exact.runEffects f)
    = (if exact.trackerScheduled f
          && exact.strict_not_equals (exact.previousValue f) exact.undefined
          && exact.strict_not_equals (exact.valueSignal f) (exact.previousValue f)
       then DIRTY else exact.dirtyStateSignal f).
Proof.
  unfold exact.runEffects, exact.dirtyTracker.
  destruct (exact.trackerScheduled f) eqn:E; simpl; [| done].
  by destruct (_ && _).
Qed.

Lemma exact_reset_cells f :
  exact.valueSignal (exact.reset f) = exact.defaultValue f
  ∧ exact.touchedStateSignal (exact.reset f) = UNTOUCHED
  ∧ exact.dirtyStateSignal (exact.reset f) = PRISTINE
  ∧ exact.previousValue (exact.reset f) = exact.previousValue f
  ∧ exact.defaultValue (exact.reset f) = exact.defaultValue f
  ∧ exact.trackerScheduled (exact.reset f)
    = exact.trackerScheduled f
      || negb (exact.Object_is (exact.valueSignal f) (exact.defaultValue f)).
Proof.
  unfold exact.reset; simpl. rewrite exact_value_set_valueSignal.
  destruct (exact_value_set_rest (exact.defaultValue f) f)
    as (_ & _ & -> & -> & ->).
  done.
Qed.

Lemma exact_settled_value_set v f :
  exact.settled f → exact.settled (exact.value_set v f).
Proof.
  unfold exact.settled, exact.value_set.
  destruct (exact.Object_is _ _); simpl; [done | intros _ [=]].
Qed.

Lemma exact_settled_step f op : exact.settled f → exact.settled (exact.step f op).
Proof.
  intros Hf. destruct op as [v | | | |]; simpl.
  - by apply exact_settled_value_set.
  - done.
  - done.
  - by apply (exact_settled_value_set (exact.defaultValue f)) in Hf.
  - unfold exact.settled, exact.runEffects, exact.dirtyTracker.
    destruct (exact.trackerScheduled f) eqn:E; [| intros _; by apply Hf].
    simpl. by destruct (_ && _).
Qed.

Lemma exact_settled_run ops f : exact.settled f → exact.settled (exact.run ops f).
Proof.
  unfold exact.run. revert f.
  induction ops as [| op ops IH]; intros f Hf; simpl; [done |].
  by apply IH, exact_settled_step.
Qed.

Lemma exact_reachable_settled held ops :
  exact.settled (exact.run ops (exact.createFormField held)).
Proof. apply exact_settled_run. by intros [=]. Qed.

Lemma exact_run_writes ws f :
  exact.valueSignal (exact.run (exact.SetValue <$> ws) f)
  = default (exact.valueSignal f) (last ws)
  ∧ exact.previousValue (exact.run (exact.SetValue <$> ws) f)
    = exact.previousValue f
  ∧ exact.dirtyStateSignal (exact.run (exact.SetValue <$> ws) f)
    = exact.dirtyStateSignal f
  ∧ exact.trackerScheduled (exact.run (exact.SetValue <$> ws) f)
    = exact.trackerScheduled f || exact.notifies (exact.valueSignal f) ws.
Proof.
  unfold exact.run. revert f. induction ws as [| w ws IH]; intros f.
  - simpl. by rewrite orb_false_r.
  - cbn [fmap list_fmap foldl exact.step exact.notifies].
    destruct (IH (exact.value_set w f)) as (-> & -> & -> & ->).
    rewrite exact_value_set_valueSignal, last_cons.
    destruct (exact_value_set_rest w f) as (_ & -> & -> & _ & ->).
    rewrite orb_assoc. by destruct (last ws).
Qed.

Lemma exact_step_defaultValue f op :
  exact.defaultValue (exact.step f op) = exact.defaultValue f.
Proof.
  destruct op as [v | | | |]; cbn [exact.step]; try done.
  - by destruct (exact_value_set_rest v f) as (_ & _ & _ & -> & _).
  - by destruct (exact_reset_cells f) as (_ & _ & _ & _ & -> & _).
  - by destruct (exact_runEffects_cells f) as (_ & _ & _ & -> & _).
Qed.

Lemma exact_run_defaultValue ops f :
  exact.defaultValue (exact.run ops f) = exact.defaultValue f.
Proof.
  unfold exact.run. revert f.
  induction ops as [| op ops IH]; intros f; simpl; [done |].
  by rewrite IH, exact_step_defaultValue.
Qed.

(** On the values of [JsValue] the tracker of [exact] is the tracker of
    the field: the cells of the field go, under each operation on the
    field, where [exact] takes them (a reset callback writing nothing). *)
Lemma exact_agrees f op :
  (op = Reset →
   forallb logs_only (onReset f (defaultValue f) (view (restore f))) = true) →
  exact_cells (step f op)
  = match exact_op op with
    | Some o => exact.step (exact_cells f) o
    | None => exact_cells f
    end.
Proof.
  assert (∀ g v, exact_cells (value_set v g)
                 = exact.value_set (exact.Plain v) (exact_cells g)) as Hset.
  { intros g v. unfold value_set, exact.value_set, Object_is, exact.Object_is.
    simpl. repeat case_bool_decide; simplify_eq; done. }
  intros Hq. destruct op as [[v | | | v] | | fn |]; simpl; try done.
  - specialize (Hq eq_refl).
    rewrite reset_unfold.
    pose proof (logs_only_cells _ (restore f) Hq) as Hc.
    unfold cells in Hc. injection Hc as Hv Ht Hd Hp Hs Hdef.
    unfold exact_cells at 1. rewrite Hv, Ht, Hd, Hp, Hs, Hdef.
    unfold exact.reset.
    change (exact.defaultValue (exact_cells f)) with (exact.Plain (defaultValue f)).
    by rewrite <- Hset.
  - unfold runEffects, exact.runEffects. simpl.
    destruct (trackerScheduled f); [| done].
    unfold dirtyTracker, exact.dirtyTracker, exact_cells. simpl.
    unfold strict_not_equals, strict_equals, exact.strict_not_equals,
      exact.undefined. simpl.
    by destruct (_ && _).
Qed.

(** X3.  Between two passes of the runtime only the last write counts,
    on every number.  After a pass, any writes followed by the next pass
    make the field dirty exactly when one of the writes has changed what
    the signal holds, the value held at the first pass is not
    [undefined], and the value then held [!==] it; otherwise [dirtyState]
    is what it was.  So a value other than [NaN] that is written over and
    written back before the tracker runs goes unnoticed, and a field that
    held [NaN] is dirty after any write that has changed the signal, even
    when it holds [NaN] again. *)
Theorem writes_between_passes_coalesce
    (held : exact.Value) (ops : list exact.Op) (ws : list exact.Value) :
  let f := exact.runEffects (exact.run ops (exact.createFormField held)) in
  let g := exact.runEffects (exact.run (exact.SetValue <$> ws) f) in
  exact.valueSignal g = default (exact.valueSignal f) (last ws)
  ∧ exact.dirtyStateSignal g
    = (if exact.notifies (exact.valueSignal f) ws
          && exact.strict_not_equals (exact.valueSignal f) exact.undefined
          && exact.strict_not_equals (exact.valueSignal g) (exact.valueSignal f)
       then DIRTY else exact.dirtyStateSignal f)
  ∧ (exact.valueSignal f ≠ exact.NaN →
     exact.valueSignal g = exact.valueSignal f →
     exact.dirtyStateSignal g = exact.dirtyStateSignal f)
  ∧ (exact.valueSignal f = exact.NaN →
     exact.notifies exact.NaN ws = true →
     exact.dirtyStateSignal g = DIRTY).
Proof.
  intros f g.
  assert (exact.previousValue f = exact.valueSignal f
          ∧ exact.trackerScheduled f = false) as (Hb & Hs).
  { subst f.
    pose proof (exact_reachable_settled held ops) as Hset.
    destruct (exact_runEffects_cells (exact.run ops (exact.createFormField held)))
      as (-> & _ & -> & _ & -> & _).
    split; [| done].
    destruct (exact.trackerScheduled _) eqn:E; [done | by apply Hset]. }
  clearbody f. clear held ops.
  destruct (exact_run_writes ws f) as (Hv & Hp & Hd & Hn).
  assert (exact.valueSignal g = default (exact.valueSignal f) (last ws)) as Hvg.
  { subst g.
    by destruct (exact_runEffects_cells (exact.run (exact.SetValue <$> ws) f))
      as (-> & _). }
  assert (exact.dirtyStateSignal g
          = (if exact.notifies (exact.valueSignal f) ws
                && exact.strict_not_equals (exact.valueSignal f) exact.undefined
                && exact.strict_not_equals (exact.valueSignal g) (exact.valueSignal f)
             then DIRTY else exact.dirtyStateSignal f)) as Hdg.
  { rewrite Hvg. subst g.
    destruct (exact_runEffects_cells (exact.run (exact.SetValue <$> ws) f))
      as (_ & _ & _ & _ & _ & ->).
    by rewrite Hn, Hp, Hd, Hv, Hb, Hs. }
  split; [done |]. split; [done |]. split.
  - intros Hnan Heq. rewrite Hdg, Heq.
    unfold exact.strict_not_equals at 2.
    rewrite exact_strict_equals_refl by done.
    by rewrite andb_false_r.
  - intros Hnan Hnot. rewrite Hdg, Hnan, Hnot.
    by rewrite exact_strict_not_equals_NaN.
Qed.

(** A field holds [NaN]; 5 and then [NaN] are written before the
    tracker runs again: the field is dirty.  *)
Lemma writes_between_passes_coalesce_witness :
  exact.dirty
    (exact.runEffects
       (exact.run [exact.SetValue (exact.Plain (JsNumber 5)); exact.SetValue exact.NaN]
          (exact.runEffects (exact.createFormField exact.NaN))))
  = true.
Proof.
  unfold exact.dirty. apply bool_decide_eq_true.
  apply (proj2 (proj2 (proj2 (writes_between_passes_coalesce
           exact.NaN [] [exact.Plain (JsNumber 5); exact.NaN])))).
  - reflexivity.
  - reflexivity.
Defined.

(** X5.  When [reset] is followed by a pass of the runtime, on every
    number and in every state the field can reach: the field ends at its
    default value and untouched, and it ends dirty exactly when the
    tracker has been notified (it was waiting already, or the reset
    changes what the signal holds), has a baseline, and the default value
    [!==] the baseline.  With a baseline other than [NaN] that is: exactly
    when the baseline is not [undefined] and the default value [!==] it.
    With [NaN] for baseline: exactly when the tracker has been
    notified. *)
Theorem dirty_after_reset_iff_stale_baseline
    (held : exact.Value) (ops : list exact.Op) :
  let f := exact.run ops (exact.createFormField held) in
  let g := exact.runEffects (exact.reset f) in
  exact.valueSignal g = held
  ∧ exact.touched g = false
  ∧ exact.dirty g
    = (exact.trackerScheduled f
       || negb (exact.Object_is (exact.valueSignal f) (exact.defaultValue f)))
      && exact.strict_not_equals (exact.previousValue f) exact.undefined
      && exact.strict_not_equals (exact.defaultValue f) (exact.previousValue f)
  ∧ (exact.previousValue f ≠ exact.NaN →
     exact.dirty g
     = exact.strict_not_equals (exact.previousValue f) exact.undefined
       && exact.strict_not_equals (exact.defaultValue f) (exact.previousValue f))
  ∧ (exact.previousValue f = exact.NaN →
     exact.dirty g
     = exact.trackerScheduled f
       || negb (exact.Object_is (exact.valueSignal f) (exact.defaultValue f))).
Proof.
  intros f g.
  assert (exact.settled f) as Hf by apply exact_reachable_settled.
  assert (exact.defaultValue f = held) as Hdef
    by (subst f; apply exact_run_defaultValue).
  clearbody f. clear ops.
  destruct (exact_reset_cells f) as (Hv & Ht & Hd & Hp & Hdf & Hs).
  assert (exact.dirty g
          = (exact.trackerScheduled f
             || negb (exact.Object_is (exact.valueSignal f) (exact.defaultValue f)))
            && exact.strict_not_equals (exact.previousValue f) exact.undefined
            && exact.strict_not_equals (exact.defaultValue f) (exact.previousValue f))
    as Hdg.
  { subst g. unfold exact.dirty.
    destruct (exact_runEffects_cells (exact.reset f)) as (_ & _ & _ & _ & _ & ->).
    rewrite Hs, Hp, Hv, Hd. by destruct (_ && _). }
  split.
  { subst g. destruct (exact_runEffects_cells (exact.reset f)) as (-> & _).
    congruence. }
  split.
  { subst g. unfold exact.touched.
    destruct (exact_runEffects_cells (exact.reset f)) as (_ & -> & _).
    by rewrite Ht. }
  split; [done |]. split.
  - intros Hnan. rewrite Hdg.
    destruct (exact.strict_not_equals (exact.defaultValue f) (exact.previousValue f))
      eqn:Ene; [| by rewrite !andb_false_r].
    rewrite !andb_true_r.
    destruct (exact.trackerScheduled f) eqn:Es; [done |].
    simpl. rewrite <- (Hf Es). unfold exact.Object_is.
    case_bool_decide as Heq; [| done].
    exfalso. rewrite <- Heq in Ene. unfold exact.strict_not_equals in Ene.
    by rewrite exact_strict_equals_refl in Ene.
  - intros Hnan. rewrite Hdg, Hnan.
    rewrite exact_strict_not_equals_NaN, andb_true_r. simpl.
    by rewrite andb_true_r.
Qed.

(** A field created with [NaN] is observed and reset with nothing
    written: it ends pristine, although [NaN !== NaN].  With 5 written
    and not observed before the reset it ends dirty, although the
    baseline is the default value. *)
Lemma dirty_after_reset_iff_stale_baseline_witness :
  exact.dirty
    (exact.runEffects
       (exact.reset (exact.run [exact.RunEffects] (exact.createFormField exact.NaN))))
  = false
  ∧ exact.dirty
      (exact.runEffects
         (exact.reset
            (exact.run [exact.RunEffects; exact.SetValue (exact.Plain (JsNumber 5))]
               (exact.createFormField exact.NaN))))
    = true.
Proof.
  split.
  - rewrite (proj2 (proj2 (proj2 (proj2 (dirty_after_reset_iff_stale_baseline
               exact.NaN [exact.RunEffects])))) eq_refl).
    reflexivity.
  - rewrite (proj2 (proj2 (proj2 (proj2 (dirty_after_reset_iff_stale_baseline
               exact.NaN
               [exact.RunEffects; exact.SetValue (exact.Plain (JsNumber 5))]))))
               eq_refl).
    reflexivity.
Defined.
